(** * Episode list and publish logic of the admin console (AdminPanel)

    A shallow embedding of the episode handlers ([handleAddEpisode],
    [removeEpisode]), of [resetForm] and of [handlePublish] of the
    [AdminPanel] component, with the facts the specification states
    about them.

    Conventions of the embedding:
    - a JavaScript string is a [string]: its characters are the code
      units below 256;
    - a JavaScript number that holds an integer is a [Z]; this is exact
      for the values the handlers compute (list lengths plus one) and for
      parsed seasons inside the safe-integer range;
    - a React state cell [const [x, setX] = useState(..)] is a field [x]
      of [State] and a setter [setX : _ -> State -> State];
    - [Date.now()], the outcome of a gateway call and the state at the
      time an awaited call settles are arguments of the handlers. *)

From stdpp Require Import base decidable numbers list list_numbers sorting
  strings pretty.
From Stdlib Require Import ZArith Lia Ascii.

Local Open Scope string_scope.
Local Open Scope list_scope.
Local Open Scope Z_scope.

(** ** JavaScript built-ins used by the handlers *)

Module JS.

(** [!s] on a string: true exactly on the empty string. *)
Definition falsy_string (s : string) : bool :=
  match s with EmptyString => true | String _ _ => false end.

(** [s || d] on strings. *)
Definition or_string (s d : string) : string :=
  if falsy_string s then d else s.

(** White space skipped by [parseInt] (StrWhiteSpaceChar), for code
    units below 256: TAB, LF, VT, FF, CR, SP and NBSP. *)
Definition isWhiteSpace (c : ascii) : bool :=
  let n := N_of_ascii c in
  ((n =? 9) || (n =? 10) || (n =? 11) || (n =? 12) || (n =? 13)
   || (n =? 32) || (n =? 160))%N.

Fixpoint trimStart (s : string) : string :=
  match s with
  | EmptyString => EmptyString
  | String c s' => if isWhiteSpace c then trimStart s' else s
  end.

(** Value of a digit character: [0-9], then letters of either case
    from 10 on. *)
Definition digitValue (c : ascii) : option Z :=
  let n := Z.of_N (N_of_ascii c) in
  if (48 <=? n) && (n <=? 57) then Some (n - 48)
  else if (97 <=? n) && (n <=? 122) then Some (n - 97 + 10)
  else if (65 <=? n) && (n <=? 90) then Some (n - 65 + 10)
  else None.

(** The longest prefix of [s] made of radix-[R] digits, as digit values. *)
Fixpoint digitsPrefix (R : Z) (s : string) : list Z :=
  match s with
  | EmptyString => []
  | String c s' =>
      match digitValue c with
      | Some d => if d <? R then d :: digitsPrefix R s' else []
      | None => []
      end
  end.

Definition digitsValue (R : Z) (ds : list Z) : Z :=
  foldl (λ acc d, acc * R + d) 0 ds.

(** [parseInt(s)] with no radix argument; [None] is NaN.  Leading
    white space is dropped, then an optional sign, then an optional
    [0x]/[0X] that switches to radix 16; the value is that of the
    longest digit prefix, and NaN when that prefix is empty.  The value
    is the exact integer the digits denote; the code's result is that
    integer as long as it is a safe integer (magnitude below 2^53), and
    a rounded number or Infinity past that range. *)
Definition parseInt (s : string) : option Z :=
  let s1 := trimStart s in
  let '(sign, s2) :=
    match s1 with
    | String "-"%char r => (-1, r)
    | String "+"%char r => (1, r)
    | _ => (1, s1)
    end in
  let '(R, s3) :=
    match s2 with
    | String "0"%char (String "x"%char r) => (16, r)
    | String "0"%char (String "X"%char r) => (16, r)
    | _ => (10, s2)
    end in
  match digitsPrefix R s3 with
  | [] => None
  | ds => Some (sign * digitsValue R ds)
  end.

(** [n || d] on numbers: NaN and 0 are falsy. *)
Definition or_number (n : option Z) (d : Z) : Z :=
  match n with
  | None => d
  | Some v => if v =? 0 then d else v
  end.

(** [n.toString()] on an integer: its decimal digits, with a minus
    sign when negative.  This is what the code prints for integers of
    magnitude below 10^21, the values of [Date.now()] among them. *)
Definition toString (n : Z) : string := pretty n.

(** [Array.prototype.sort(comparefn)]: a stable sort.  [a] is placed
    before [b] when [comparefn a b < 0], after it when
    [comparefn a b > 0], and elements that compare as 0 keep their
    order.  Written as an insertion from the right: an element stays
    in front of the ones that followed it unless the comparison says
    it comes after them. *)
Section Sort.
Context {A : Type} (comparefn : A → A → Z).

Fixpoint sort_insert (x : A) (l : list A) : list A :=
    match l with
    | [] => [x]
    | y :: l' =>
        if comparefn x y <=? 0 then x :: y :: l'
        else y :: sort_insert x l'
    end.

Fixpoint sort (l : list A) : list A :=
    match l with
    | [] => []
    | x :: l' => sort_insert x (sort l')
    end.
End Sort.

End JS.

(** ** Data model (types.ts) *)

Module Episode.
Record t := mk {
  id : string;
  number : Z;
  season : Z;
  title : string;
  duration : string;
  telegramCode : string;
}.

Global Instance eq_dec : EqDecision t.
Proof. solve_decision. Defined.
End Episode.
Abbreviation Episode := Episode.t.

(** The sentinel returned by [serverTimestamp()]. *)
Inductive FieldValue := ServerTimestamp.

(** The object literal [movieData] built by [handlePublish].  [rating]
    holds the argument of [parseFloat]; [episodes] is [None] for
    [null]. *)
Module MovieData.
Record t := mk {
  title : string;
  category : string;
  thumbnail : string;
  telegramCode : string;
  year : string;
  rating : string;
  quality : string;
  description : string;
  episodes : option (list Episode);
  updatedAt : FieldValue;
}.
End MovieData.
Abbreviation MovieData := MovieData.t.

(** ** Component state

    The [useState] cells of [AdminPanel] that the episode handlers,
    [resetForm] and [handlePublish] read or write.  [editId] is
    [string | null]. *)

Record State := mkState {
  activeTab : string;
  loading : bool;
  isEditing : bool;
  editId : option string;
  title : string;
  category : string;
  thumbnail : string;
  telegramCode : string;
  year : string;
  rating : string;
  quality : string;
  description : string;
  episodes : list Episode;
  newEpTitle : string;
  newEpSeason : string;
  newEpDuration : string;
  newEpCode : string;
}.

(** The [useState] initial values. *)
Definition initialState : State :=
  {| activeTab := "upload"; loading := false;
     isEditing := false; editId := None;
     title := ""; category := "Exclusive"; thumbnail := "";
     telegramCode := ""; year := "2024"; rating := "9.0";
     quality := "4K HDR"; description := ""; episodes := [];
     newEpTitle := ""; newEpSeason := "1"; newEpDuration := "";
     newEpCode := "" |}.

(** The state setters: each replaces one cell. *)

Definition setActiveTab (v : string) (st : State) : State :=
  {| activeTab := v; loading := loading st; isEditing := isEditing st;
     editId := editId st; title := title st; category := category st;
     thumbnail := thumbnail st; telegramCode := telegramCode st;
     year := year st; rating := rating st; quality := quality st;
     description := description st; episodes := episodes st;
     newEpTitle := newEpTitle st; newEpSeason := newEpSeason st;
     newEpDuration := newEpDuration st; newEpCode := newEpCode st |}.

Definition setLoading (v : bool) (st : State) : State :=
  {| activeTab := activeTab st; loading := v; isEditing := isEditing st;
     editId := editId st; title := title st; category := category st;
     thumbnail := thumbnail st; telegramCode := telegramCode st;
     year := year st; rating := rating st; quality := quality st;
     description := description st; episodes := episodes st;
     newEpTitle := newEpTitle st; newEpSeason := newEpSeason st;
     newEpDuration := newEpDuration st; newEpCode := newEpCode st |}.

Definition setIsEditing (v : bool) (st : State) : State :=
  {| activeTab := activeTab st; loading := loading st; isEditing := v;
     editId := editId st; title := title st; category := category st;
     thumbnail := thumbnail st; telegramCode := telegramCode st;
     year := year st; rating := rating st; quality := quality st;
     description := description st; episodes := episodes st;
     newEpTitle := newEpTitle st; newEpSeason := newEpSeason st;
     newEpDuration := newEpDuration st; newEpCode := newEpCode st |}.

Definition setEditId (v : option string) (st : State) : State :=
  {| activeTab := activeTab st; loading := loading st;
     isEditing := isEditing st; editId := v; title := title st;
     category := category st; thumbnail := thumbnail st;
     telegramCode := telegramCode st; year := year st; rating := rating st;
     quality := quality st; description := description st;
     episodes := episodes st; newEpTitle := newEpTitle st;
     newEpSeason := newEpSeason st; newEpDuration := newEpDuration st;
     newEpCode := newEpCode st |}.

Definition setTitle (v : string) (st : State) : State :=
  {| activeTab := activeTab st; loading := loading st;
     isEditing := isEditing st; editId := editId st; title := v;
     category := category st; thumbnail := thumbnail st;
     telegramCode := telegramCode st; year := year st; rating := rating st;
     quality := quality st; description := description st;
     episodes := episodes st; newEpTitle := newEpTitle st;
     newEpSeason := newEpSeason st; newEpDuration := newEpDuration st;
     newEpCode := newEpCode st |}.

Definition setCategory (v : string) (st : State) : State :=
  {| activeTab := activeTab st; loading := loading st;
     isEditing := isEditing st; editId := editId st; title := title st;
     category := v; thumbnail := thumbnail st;
     telegramCode := telegramCode st; year := year st; rating := rating st;
     quality := quality st; description := description st;
     episodes := episodes st; newEpTitle := newEpTitle st;
     newEpSeason := newEpSeason st; newEpDuration := newEpDuration st;
     newEpCode := newEpCode st |}.

Definition setThumbnail (v : string) (st : State) : State :=
  {| activeTab := activeTab st; loading := loading st;
     isEditing := isEditing st; editId := editId st; title := title st;
     category := category st; thumbnail := v;
     telegramCode := telegramCode st; year := year st; rating := rating st;
     quality := quality st; description := description st;
     episodes := episodes st; newEpTitle := newEpTitle st;
     newEpSeason := newEpSeason st; newEpDuration := newEpDuration st;
     newEpCode := newEpCode st |}.

Definition setTelegramCode (v : string) (st : State) : State :=
  {| activeTab := activeTab st; loading := loading st;
     isEditing := isEditing st; editId := editId st; title := title st;
     category := category st; thumbnail := thumbnail st; telegramCode := v;
     year := year st; rating := rating st; quality := quality st;
     description := description st; episodes := episodes st;
     newEpTitle := newEpTitle st; newEpSeason := newEpSeason st;
     newEpDuration := newEpDuration st; newEpCode := newEpCode st |}.

Definition setYear (v : string) (st : State) : State :=
  {| activeTab := activeTab st; loading := loading st;
     isEditing := isEditing st; editId := editId st; title := title st;
     category := category st; thumbnail := thumbnail st;
     telegramCode := telegramCode st; year := v; rating := rating st;
     quality := quality st; description := description st;
     episodes := episodes st; newEpTitle := newEpTitle st;
     newEpSeason := newEpSeason st; newEpDuration := newEpDuration st;
     newEpCode := newEpCode st |}.

Definition setRating (v : string) (st : State) : State :=
  {| activeTab := activeTab st; loading := loading st;
     isEditing := isEditing st; editId := editId st; title := title st;
     category := category st; thumbnail := thumbnail st;
     telegramCode := telegramCode st; year := year st; rating := v;
     quality := quality st; description := description st;
     episodes := episodes st; newEpTitle := newEpTitle st;
     newEpSeason := newEpSeason st; newEpDuration := newEpDuration st;
     newEpCode := newEpCode st |}.

Definition setQuality (v : string) (st : State) : State :=
  {| activeTab := activeTab st; loading := loading st;
     isEditing := isEditing st; editId := editId st; title := title st;
     category := category st; thumbnail := thumbnail st;
     telegramCode := telegramCode st; year := year st; rating := rating st;
     quality := v; description := description st; episodes := episodes st;
     newEpTitle := newEpTitle st; newEpSeason := newEpSeason st;
     newEpDuration := newEpDuration st; newEpCode := newEpCode st |}.

Definition setDescription (v : string) (st : State) : State :=
  {| activeTab := activeTab st; loading := loading st;
     isEditing := isEditing st; editId := editId st; title := title st;
     category := category st; thumbnail := thumbnail st;
     telegramCode := telegramCode st; year := year st; rating := rating st;
     quality := quality st; description := v; episodes := episodes st;
     newEpTitle := newEpTitle st; newEpSeason := newEpSeason st;
     newEpDuration := newEpDuration st; newEpCode := newEpCode st |}.

Definition setEpisodes (v : list Episode) (st : State) : State :=
  {| activeTab := activeTab st; loading := loading st;
     isEditing := isEditing st; editId := editId st; title := title st;
     category := category st; thumbnail := thumbnail st;
     telegramCode := telegramCode st; year := year st; rating := rating st;
     quality := quality st; description := description st; episodes := v;
     newEpTitle := newEpTitle st; newEpSeason := newEpSeason st;
     newEpDuration := newEpDuration st; newEpCode := newEpCode st |}.

Definition setNewEpTitle (v : string) (st : State) : State :=
  {| activeTab := activeTab st; loading := loading st;
     isEditing := isEditing st; editId := editId st; title := title st;
     category := category st; thumbnail := thumbnail st;
     telegramCode := telegramCode st; year := year st; rating := rating st;
     quality := quality st; description := description st;
     episodes := episodes st; newEpTitle := v;
     newEpSeason := newEpSeason st; newEpDuration := newEpDuration st;
     newEpCode := newEpCode st |}.

Definition setNewEpSeason (v : string) (st : State) : State :=
  {| activeTab := activeTab st; loading := loading st;
     isEditing := isEditing st; editId := editId st; title := title st;
     category := category st; thumbnail := thumbnail st;
     telegramCode := telegramCode st; year := year st; rating := rating st;
     quality := quality st; description := description st;
     episodes := episodes st; newEpTitle := newEpTitle st;
     newEpSeason := v; newEpDuration := newEpDuration st;
     newEpCode := newEpCode st |}.

Definition setNewEpDuration (v : string) (st : State) : State :=
  {| activeTab := activeTab st; loading := loading st;
     isEditing := isEditing st; editId := editId st; title := title st;
     category := category st; thumbnail := thumbnail st;
     telegramCode := telegramCode st; year := year st; rating := rating st;
     quality := quality st; description := description st;
     episodes := episodes st; newEpTitle := newEpTitle st;
     newEpSeason := newEpSeason st; newEpDuration := v;
     newEpCode := newEpCode st |}.

Definition setNewEpCode (v : string) (st : State) : State :=
  {| activeTab := activeTab st; loading := loading st;
     isEditing := isEditing st; editId := editId st; title := title st;
     category := category st; thumbnail := thumbnail st;
     telegramCode := telegramCode st; year := year st; rating := rating st;
     quality := quality st; description := description st;
     episodes := episodes st; newEpTitle := newEpTitle st;
     newEpSeason := newEpSeason st; newEpDuration := newEpDuration st;
     newEpCode := v |}.

(** Successive setter calls of one handler, in source order. *)
Notation "st |> f" := (f st)
  (at level 45, left associativity, only parsing).

(** ** Helper functions *)

(** [resetForm]. *)
Definition resetForm (st : State) : State :=
  st |> setTitle ""
     |> setCategory "Exclusive"
     |> setThumbnail ""
     |> setTelegramCode ""
     |> setYear "2024"
     |> setRating "9.0"
     |> setQuality "4K HDR"
     |> setDescription ""
     |> setEpisodes []
     |> setNewEpSeason "1"
     |> setIsEditing false
     |> setEditId None.

(** The comparison function handed to [sort] in [handleAddEpisode]:
    [if (a.season !== b.season) return a.season - b.season;
     return a.number - b.number]. *)
Definition compareEpisodes (a b : Episode) : Z :=
  if decide (Episode.season a ≠ Episode.season b)
  then Episode.season a - Episode.season b
  else Episode.number a - Episode.number b.

(** [parseInt(newEpSeason) || 1]. *)
Definition seasonNumOf (newEpSeason : string) : Z :=
  JS.or_number (JS.parseInt newEpSeason) 1.

(** The constant [newEp] of [handleAddEpisode]; [now] is the value of
    [Date.now()]. *)
Definition newEp (now : Z) (st : State) : Episode :=
  let seasonNum := seasonNumOf (newEpSeason st) in
  {| Episode.id := JS.toString now;
     Episode.number :=
       Z.of_nat
         (length (filter (λ e, Episode.season e = seasonNum)
                    (episodes st))) + 1;
     Episode.season := seasonNum;
     Episode.title := newEpTitle st;
     Episode.duration := JS.or_string (newEpDuration st) "N/A";
     Episode.telegramCode := newEpCode st |}.

(** [handleAddEpisode]. *)
Definition handleAddEpisode (now : Z) (st : State) : State :=
  if JS.falsy_string (newEpTitle st) || JS.falsy_string (newEpCode st)
  then st
  else
    let updatedEpisodes :=
      JS.sort compareEpisodes (episodes st ++ [newEp now st]) in
    st |> setEpisodes updatedEpisodes
       |> setNewEpTitle ""
       |> setNewEpDuration ""
       |> setNewEpCode "".

(** [removeEpisode]. *)
Definition removeEpisode (id : string) (st : State) : State :=
  st |> setEpisodes (filter (λ ep, Episode.id ep ≠ id) (episodes st)).

(** ** Main actions: [handlePublish] *)

(** What a handler does besides setting state: the notices it shows, the
    console log, the gateway calls it issues and the list refresh it
    starts. *)
Inductive Effect :=
  | Alert (msg : string)
  | ConsoleError
  | UpdateDoc (id : string) (data : MovieData)
  | AddDoc (data : MovieData) (views : string) (createdAt : FieldValue)
  | FetchMovies.

(** How the awaited gateway call settles. *)
Inductive GatewayResult := Resolved | Rejected.

(** The guard at the top of [handlePublish]:
    [!title || !thumbnail || (!telegramCode && episodes.length === 0)]. *)
Definition publishRejected (st : State) : bool :=
  JS.falsy_string (title st) || JS.falsy_string (thumbnail st)
  || (JS.falsy_string (telegramCode st)
      && (length (episodes st) =? 0)%nat).

(** The object [movieData]. *)
Definition movieData (st : State) : MovieData :=
  {| MovieData.title := title st;
     MovieData.category := category st;
     MovieData.thumbnail := thumbnail st;
     MovieData.telegramCode := telegramCode st;
     MovieData.year := year st;
     MovieData.rating := rating st;
     MovieData.quality := quality st;
     MovieData.description := description st;
     MovieData.episodes :=
       if (0 <? length (episodes st))%nat then Some (episodes st)
       else None;
     MovieData.updatedAt := ServerTimestamp |}.

(** [isEditing && editId]: the id to update, when there is one. *)
Definition updateTarget (st : State) : option string :=
  if isEditing st then
    match editId st with
    | Some i => if JS.falsy_string i then None else Some i
    | None => None
    end
  else None.

(** The gateway call issued for the state the handler was created in. *)
Definition gatewayCall (st : State) : Effect :=
  match updateTarget st with
  | Some i => UpdateDoc i (movieData st)
  | None => AddDoc (movieData st) "0" ServerTimestamp
  end.

(** [handlePublish] up to its [await]: the guard, [setLoading(true)] and
    the gateway call. *)
Definition handlePublish_begin (st : State) : State * list Effect :=
  if publishRejected st
  then (st, [Alert "Title, Thumbnail and at least one Link (Code or Episode) are required"])
  else (st |> setLoading true, [gatewayCall st]).

(** [handlePublish] from the point its [await] settles.  [closure] is
    the state the handler was created in, whose cells it reads; the
    setters act on [cur], the state at that time. *)
Definition handlePublish_settle
    (r : GatewayResult) (closure cur : State) : State * list Effect :=
  match r with
  | Resolved =>
      (resetForm cur |> setLoading false,
       [Alert (match updateTarget closure with
               | Some _ => "Content Updated Successfully!"
               | None => "Content Added Successfully!"
               end)]
       ++ (if decide (activeTab closure = "content")
           then [FetchMovies] else []))
  | Rejected =>
      (cur |> setLoading false,
       [ConsoleError; Alert "Error saving document"])
  end.

(** [handlePublish] when nothing else happens while the call is in
    flight. *)
Definition handlePublish (r : GatewayResult) (st : State)
  : State * list Effect :=
  let '(st1, eff1) := handlePublish_begin st in
  if publishRejected st then (st1, eff1)
  else
    let '(st2, eff2) := handlePublish_settle r st st1 in
    (st2, eff1 ++ eff2).

(** ** Operator actions on the episode builder *)

(** The [onChange] handlers of the four inputs and the two buttons. *)
Inductive Event :=
  | ChangeNewEpSeason (v : string)
  | ChangeNewEpTitle (v : string)
  | ChangeNewEpDuration (v : string)
  | ChangeNewEpCode (v : string)
  | ClickAddEpisode (now : Z)
  | ClickRemoveEpisode (id : string).

Definition step (st : State) (ev : Event) : State :=
  match ev with
  | ChangeNewEpSeason v => setNewEpSeason v st
  | ChangeNewEpTitle v => setNewEpTitle v st
  | ChangeNewEpDuration v => setNewEpDuration v st
  | ChangeNewEpCode v => setNewEpCode v st
  | ClickAddEpisode now => handleAddEpisode now st
  | ClickRemoveEpisode id => removeEpisode id st
  end.

Definition run (st : State) (evs : list Event) : State :=
  foldl step st evs.

(** A state the builder can be in: reached from the initial state. *)
Definition reachable (st : State) : Prop :=
  ∃ evs, st = run initialState evs.

Definition is_remove (ev : Event) : bool :=
  match ev with ClickRemoveEpisode _ => true | _ => false end.

Definition is_add (ev : Event) : bool :=
  match ev with ClickAddEpisode _ => true | _ => false end.

(** The operation [add(season, title, duration, code)]: the operator
    fills the four inputs and presses the button. *)
Record AddRequest := mkAdd {
  add_now : Z;
  add_season : string;
  add_title : string;
  add_duration : string;
  add_code : string;
}.

Definition add (st : State) (a : AddRequest) : State :=
  st |> setNewEpSeason (add_season a)
     |> setNewEpTitle (add_title a)
     |> setNewEpDuration (add_duration a)
     |> setNewEpCode (add_code a)
     |> handleAddEpisode (add_now a).

Definition addAll (st : State) (adds : list AddRequest) : State :=
  foldl add st adds.

(** ** Vocabulary of the properties *)

(** The order the list is kept in: season first, then number. *)
Definition ep_le (a b : Episode) : Prop :=
  Episode.season a < Episode.season b
  ∨ (Episode.season a = Episode.season b
     ∧ Episode.number a <= Episode.number b).

Definition key (e : Episode) : Z * Z := (Episode.season e, Episode.number e).

(** The episodes of one season, in list order, and their numbers. *)
Definition ofSeason (s : Z) (l : list Episode) : list Episode :=
  filter (λ e, Episode.season e = s) l.

Definition numbersOf (s : Z) (l : list Episode) : list Z :=
  Episode.number <$> ofSeason s l.

(** Numbering is dense: each season's numbers read 1, 2, .., K. *)
Definition dense (l : list Episode) : Prop :=
  ∀ s, numbersOf s l = seqZ 1 (Z.of_nat (length (ofSeason s l))).

(** [tied R x y]: the order [R] puts neither of [x], [y] strictly
    before the other. *)
Definition tied {A} (R : relation A) (x y : A) : Prop := R x y ∧ R y x.

#[global] Instance tied_dec {A} (R : relation A)
  `{!∀ x y, Decision (R x y)} x y : Decision (tied R x y).
Proof. unfold tied. apply _. Defined.

(** Two states hold the same session data: the form fields, the
    edit mode and target, the episode list and the pending episode
    inputs.  Only [loading] and [activeTab] are left out. *)
Definition sameSession (a b : State) : Prop :=
  title a = title b ∧ category a = category b
  ∧ thumbnail a = thumbnail b ∧ telegramCode a = telegramCode b
  ∧ year a = year b ∧ rating a = rating b ∧ quality a = quality b
  ∧ description a = description b ∧ episodes a = episodes b
  ∧ newEpTitle a = newEpTitle b ∧ newEpSeason a = newEpSeason b
  ∧ newEpDuration a = newEpDuration b ∧ newEpCode a = newEpCode b
  ∧ isEditing a = isEditing b ∧ editId a = editId b.

(** ** The rest of the component *)

(** [s.replace(c, '')] for a search string of one character: the first
    occurrence of [c] is dropped, later ones stay. *)
Fixpoint removeFirst (c : ascii) (s : string) : string :=
  match s with
  | EmptyString => EmptyString
  | String a s' =>
      if decide (a = c) then s' else String a (removeFirst c s')
  end.

(** [o || d] where [o] is a string that may be missing. *)
Definition or_undefined (o : option string) (d : string) : string :=
  match o with
  | Some s => JS.or_string s d
  | None => d
  end.

(** [Movie] of types.ts.  The number [rating] is held as the text
    [rating.toString()] gives, which is all the component reads of it;
    [createdAt?: any] is never read and is left out. *)
Module Movie.
Record t := mk {
  id : string;
  title : string;
  thumbnail : string;
  category : string;
  telegramCode : string;
  rating : string;
  views : string;
  year : option string;
  quality : option string;
  description : option string;
  episodes : option (list Episode);
  isPremium : option bool;
}.
End Movie.
Abbreviation Movie := Movie.t.

(** [AppSettings] of types.ts: the object written by
    [handleSaveSettings]. *)
Module AppSettings.
Record t := mk {
  botUsername : string;
  channelLink : string;
}.
End AppSettings.
Abbreviation AppSettings := AppSettings.t.

(** [docSnap.data()] of the settings document: either field may be
    missing. *)
Module SettingsData.
Record t := mk {
  botUsername : option string;
  channelLink : option string;
}.
End SettingsData.
Abbreviation SettingsData := SettingsData.t.

(** [handleEdit]. *)
Definition handleEdit (movie : Movie) (st : State) : State :=
  st |> setTitle (Movie.title movie)
     |> setCategory (Movie.category movie)
     |> setThumbnail (Movie.thumbnail movie)
     |> setTelegramCode (JS.or_string (Movie.telegramCode movie) "")
     |> setYear (or_undefined (Movie.year movie) "2024")
     |> setRating (Movie.rating movie)
     |> setQuality (or_undefined (Movie.quality movie) "4K HDR")
     |> setDescription (or_undefined (Movie.description movie) "")
     |> setEpisodes (default [] (Movie.episodes movie))
     |> setIsEditing true
     |> setEditId (Some (Movie.id movie))
     |> setActiveTab "upload".

(** The sidebar button of the upload tab:
    [setActiveTab('upload'); resetForm()]. *)
Definition openUploadTab (st : State) : State :=
  st |> setActiveTab "upload" |> resetForm.

(** The [Movie] that [fetchMovies] builds, [{ id: doc.id, ...doc.data() }],
    from a document that holds the fields of a [movieData] written by
    [handlePublish] and a [views] field.  [ratingText] is the text of the
    stored number. *)
Definition storedMovie
    (docId ratingText views : string) (d : MovieData) : Movie :=
  {| Movie.id := docId;
     Movie.title := MovieData.title d;
     Movie.thumbnail := MovieData.thumbnail d;
     Movie.category := MovieData.category d;
     Movie.telegramCode := MovieData.telegramCode d;
     Movie.rating := ratingText;
     Movie.views := views;
     Movie.year := Some (MovieData.year d);
     Movie.quality := Some (MovieData.quality d);
     Movie.description := Some (MovieData.description d);
     Movie.episodes := MovieData.episodes d;
     Movie.isPremium := None |}.

(** The whole component: the cells of [State] and the remaining
    [useState] cells.  [user] is [User | null]; of the signed-in account
    the component reads only the e-mail address, which stands for it
    here. *)
Record Console := mkConsole {
  session : State;
  user : option string;
  email : string;
  password : string;
  error : string;
  botUsername : string;
  channelLink : string;
  movieList : list Movie;
}.

(** The [useState] initial values. *)
Definition initialConsole : Console :=
  {| session := initialState; user := None; email := ""; password := "";
     error := ""; botUsername := ""; channelLink := ""; movieList := [] |}.

(** A setter of a [State] cell, applied inside the component. *)
Definition withSession (f : State → State) (c : Console) : Console :=
  {| session := f (session c); user := user c; email := email c;
     password := password c; error := error c;
     botUsername := botUsername c; channelLink := channelLink c;
     movieList := movieList c |}.

Definition setUser (v : option string) (c : Console) : Console :=
  {| session := session c; user := v; email := email c;
     password := password c; error := error c;
     botUsername := botUsername c; channelLink := channelLink c;
     movieList := movieList c |}.

Definition setEmail (v : string) (c : Console) : Console :=
  {| session := session c; user := user c; email := v;
     password := password c; error := error c;
     botUsername := botUsername c; channelLink := channelLink c;
     movieList := movieList c |}.

Definition setPassword (v : string) (c : Console) : Console :=
  {| session := session c; user := user c; email := email c; password := v;
     error := error c; botUsername := botUsername c;
     channelLink := channelLink c; movieList := movieList c |}.

Definition setError (v : string) (c : Console) : Console :=
  {| session := session c; user := user c; email := email c;
     password := password c; error := v; botUsername := botUsername c;
     channelLink := channelLink c; movieList := movieList c |}.

Definition setBotUsername (v : string) (c : Console) : Console :=
  {| session := session c; user := user c; email := email c;
     password := password c; error := error c; botUsername := v;
     channelLink := channelLink c; movieList := movieList c |}.

Definition setChannelLink (v : string) (c : Console) : Console :=
  {| session := session c; user := user c; email := email c;
     password := password c; error := error c;
     botUsername := botUsername c; channelLink := v;
     movieList := movieList c |}.

Definition setMovieList (v : list Movie) (c : Console) : Console :=
  {| session := session c; user := user c; email := email c;
     password := password c; error := error c;
     botUsername := botUsername c; channelLink := channelLink c;
     movieList := v |}.

(** What the remaining handlers ask of the outside: the auth and
    store calls, the notices and the console log. *)
Inductive Request :=
  | SignIn (email password : string)
  | SetSettingsDoc (data : AppSettings)
  | DeleteMovieDoc (id : string)
  | Notice (msg : string)
  | LogError
  | LogWarn.

(** The outcome of a read: the value, or a failure. *)
Inductive Fetched (A : Type) :=
  | Got (a : A)
  | Failed.
Arguments Got {A} a.
Arguments Failed {A}.

(** [handleLogin] up to its [await]. *)
Definition handleLogin_begin (c : Console) : Console * list Request :=
  (c |> withSession (setLoading true) |> setError "",
   [SignIn (email c) (password c)]).

(** [handleLogin] from the point its [await] settles, on the state at
    that time. *)
Definition handleLogin_settle (r : GatewayResult) (cur : Console) : Console :=
  match r with
  | Resolved => cur |> withSession (setLoading false)
  | Rejected =>
      cur |> setError "Invalid admin credentials"
          |> withSession (setLoading false)
  end.

(** The callback given to [onAuthStateChanged]. *)
Definition onAuthStateChanged (currentUser : option string) (c : Console)
  : Console :=
  setUser currentUser c.

(** The [onChange] handler of the bot username input:
    [setBotUsername(e.target.value.replace('@', ''))]. *)
Definition changeBotUsername (value : string) (c : Console) : Console :=
  setBotUsername (removeFirst "@"%char value) c.

(** [handleSaveSettings] up to its [await]. *)
Definition handleSaveSettings_begin (c : Console) : Console * list Request :=
  (c |> withSession (setLoading true),
   [SetSettingsDoc
      {| AppSettings.botUsername := botUsername c;
         AppSettings.channelLink := channelLink c |}]).

(** [handleSaveSettings] from the point its [await] settles. *)
Definition handleSaveSettings_settle (r : GatewayResult) (cur : Console)
  : Console * list Request :=
  (cur |> withSession (setLoading false),
   [Notice (match r with
            | Resolved => "App Configuration Saved!"
            | Rejected => "Error saving settings"
            end)]).

(** [fetchSettings] from the point [getDoc] settles.  [BOT_USERNAME] is
    the constant imported from the constants module; [snap] is [None]
    when the document does not exist. *)
Definition fetchSettings (BOT_USERNAME : string)
    (snap : Fetched (option SettingsData)) (cur : Console)
  : Console * list Request :=
  match snap with
  | Got (Some data) =>
      (cur |> setBotUsername
                (or_undefined (SettingsData.botUsername data) BOT_USERNAME)
           |> setChannelLink
                (or_undefined (SettingsData.channelLink data) ""),
       [])
  | Got None => (cur |> setBotUsername BOT_USERNAME, [])
  | Failed => (cur, [LogError])
  end.

(** The settings document as read back after [data] was written to
    it. *)
Definition settingsRead (data : AppSettings) : SettingsData :=
  {| SettingsData.botUsername := Some (AppSettings.botUsername data);
     SettingsData.channelLink := Some (AppSettings.channelLink data) |}.

(** [fetchMovies] from the point [getDocs] settles; [list] is the mapped
    snapshot. *)
Definition fetchMovies (res : Fetched (list Movie)) (cur : Console)
  : Console * list Request :=
  match res with
  | Got list => (setMovieList list cur, [])
  | Failed => (cur, [LogWarn])
  end.

(** [handleDelete] up to its [await]; [confirmed] is the answer to
    [confirm(..)]. *)
Definition handleDelete_begin (confirmed : bool) (id : string) (c : Console)
  : Console * list Request :=
  if confirmed then (c, [DeleteMovieDoc id]) else (c, []).

(** [handleDelete] from the point [deleteDoc] settles:
    [setMovieList(prev => prev.filter(m => m.id !== id))] acts on the
    list at that time. *)
Definition handleDelete_settle (r : GatewayResult) (id : string)
    (cur : Console) : Console * list Request :=
  match r with
  | Resolved =>
      (setMovieList (filter (λ m, Movie.id m ≠ id) (movieList cur)) cur, [])
  | Rejected => (cur, [Notice "Error deleting movie"])
  end.

(** An episode as [handleAddEpisode] makes them: numbered from 1, in a
    non-zero season, with a title, a duration and a code. *)
Definition wellFormed (e : Episode) : Prop :=
  1 <= Episode.number e ∧ Episode.season e ≠ 0
  ∧ Episode.title e ≠ "" ∧ Episode.duration e ≠ ""
  ∧ Episode.telegramCode e ≠ "".

(** How often the character [c] occurs in [s]. *)
Fixpoint occurrences (c : ascii) (s : string) : nat :=
  match s with
  | EmptyString => 0%nat
  | String a s' => ((if decide (a = c) then 1 else 0) + occurrences c s')%nat
  end.

(** The text of an input after the character [a] is typed at position
    [i] of [s] (at the end when [i] is past it). *)
Fixpoint insertAt (i : nat) (a : ascii) (s : string) : string :=
  match i, s with
  | O, _ => String a s
  | S _, EmptyString => String a EmptyString
  | S i', String b s' => String b (insertAt i' a s')
  end.

(** [Number.MAX_SAFE_INTEGER], 2^53 - 1, and [Number.isSafeInteger] on
    an integer.  A JavaScript number holds every integer of this range
    exactly and prints it in plain decimal digits, so inside it the
    integers of the embedding and the numbers of the code are the
    same. *)
Definition MAX_SAFE_INTEGER : Z := 9007199254740991.

Definition isSafeInteger (n : Z) : Prop :=
  - MAX_SAFE_INTEGER <= n <= MAX_SAFE_INTEGER.

(** * Facts *)

(** ** Lists *)

Lemma Forall_filter_keep {A} (P Q : A → Prop) `{!∀ x, Decision (P x)} l :
  Forall Q l → Forall Q (filter P l).
Proof.
  rewrite !Forall_forall. intros HQ x [_ Hx]%list_elem_of_filter. auto.
Qed.

Lemma StronglySorted_filter {A} (R : relation A) (P : A → Prop)
    `{!∀ x, Decision (P x)} l :
  StronglySorted R l → StronglySorted R (filter P l).
Proof.
  induction 1 as [|x l Hl IH Hx]; [constructor|].
  rewrite filter_cons. destruct (decide (P x)); [|done].
  constructor; [done|]. by apply Forall_filter_keep.
Qed.

(** ** The stable sort *)

Section SortFacts.
Context {A : Type} (comparefn : A → A → Z) (R : relation A).
Context (comparefn_spec : ∀ x y, comparefn x y <= 0 ↔ R x y).
Context `{!Total R, !Transitive R}.

Lemma sort_insert_perm x l : JS.sort_insert comparefn x l ≡ₚ x :: l.
Proof.
  induction l as [|y l IH]; simpl; [done|].
  destruct (comparefn x y <=? 0); [done|].
  rewrite IH. apply Permutation_swap.
Qed.

Lemma sort_perm l : JS.sort comparefn l ≡ₚ l.
Proof.
  induction l as [|x l IH]; simpl; [done|].
  by rewrite sort_insert_perm, IH.
Qed.

Lemma sort_insert_front x l :
  Forall (R x) l → JS.sort_insert comparefn x l = x :: l.
Proof.
  destruct 1 as [|y l Hxy _]; simpl; [done|].
  apply comparefn_spec, Z.leb_le in Hxy. by rewrite Hxy.
Qed.

Lemma sort_insert_sorted x l :
  StronglySorted R l → StronglySorted R (JS.sort_insert comparefn x l).
Proof.
  induction 1 as [|y l Hl IH Hy]; simpl.
  { repeat constructor. }
  destruct (comparefn x y <=? 0) eqn:Hc.
  - apply Z.leb_le, comparefn_spec in Hc.
    constructor; [by constructor|].
    constructor; [done|].
    eapply Forall_impl; [exact Hy|]. intros z Hz. by trans y.
  - apply Z.leb_gt in Hc.
    assert (R y x) as Hyx.
    { destruct (total R x y) as [Hxy|]; [|done].
      apply comparefn_spec in Hxy. lia. }
    constructor; [done|].
    rewrite sort_insert_perm. by constructor.
Qed.

Lemma sort_sorted l : StronglySorted R (JS.sort comparefn l).
Proof.
  induction l; simpl; [constructor|by apply sort_insert_sorted].
Qed.

Lemma sort_of_sorted l : StronglySorted R l → JS.sort comparefn l = l.
Proof.
  induction 1 as [|x l Hl IH Hx]; simpl; [done|].
  rewrite IH. by apply sort_insert_front.
Qed.

Lemma filter_sort_insert (P : A → Prop) `{!∀ x, Decision (P x)} x l :
  StronglySorted R l →
  filter P (JS.sort_insert comparefn x l) =
    if decide (P x) then JS.sort_insert comparefn x (filter P l)
    else filter P l.
Proof.
  induction 1 as [|y l Hl IH Hy]; simpl.
  { rewrite filter_cons, filter_nil. by destruct (decide (P x)). }
  destruct (comparefn x y <=? 0) eqn:Hc.
  - apply Z.leb_le, comparefn_spec in Hc.
    rewrite (filter_cons _ x). destruct (decide (P x)); [|done].
    symmetry. apply sort_insert_front, Forall_filter_keep.
    constructor; [done|].
    eapply Forall_impl; [exact Hy|]. intros z Hz. by trans y.
  - rewrite !(filter_cons _ y), IH.
    destruct (decide (P x)), (decide (P y)); simpl; by rewrite ?Hc.
Qed.

(** Sorting commutes with selecting: the selected elements come out in
    the order a sort of them alone gives.  This is stability. *)
Lemma filter_sort (P : A → Prop) `{!∀ x, Decision (P x)} l :
  filter P (JS.sort comparefn l) = JS.sort comparefn (filter P l).
Proof.
  induction l as [|x l IH]; simpl; [done|].
  rewrite filter_sort_insert by apply sort_sorted.
  rewrite filter_cons, IH. by destruct (decide (P x)).
Qed.

(** What a stable sort is.  A list is the stable sort of
    [l] when it is in order and, for each [x], holds the elements of [l]
    tied with [x] in the order [l] has them.  There is one such list,
    and [JS.sort] computes it: any implementation of a stable sort
    returns what the model returns. *)
Context `{!Reflexive R, !∀ x y, Decision (R x y)}.


Lemma sort_keeps_ties x l :
  filter (tied R x) (JS.sort comparefn l) = filter (tied R x) l.
Proof.
  rewrite filter_sort. apply sort_of_sorted.
  assert (Forall (tied R x) (filter (tied R x) l)) as Hall.
  { apply Forall_forall. by intros y [? _]%list_elem_of_filter. }
  induction Hall as [|y m [Hxy Hyx] Hm IH]; constructor; [done|].
  eapply Forall_impl; [exact Hm|]. intros z [Hxz _]. by trans x.
Qed.

Lemma stable_sorted_unique l1 l2 :
  StronglySorted R l1 → StronglySorted R l2 →
  (∀ x, filter (tied R x) l1 = filter (tied R x) l2) →
  l1 = l2.
Proof.
  intros Hl1. revert l2.
  induction Hl1 as [|a l1 Hl1 IH Ha]; intros l2 Hl2 Heq.
  { destruct l2 as [|b l2]; [done|]. specialize (Heq b).
    rewrite filter_nil, filter_cons_True in Heq by done. done. }
  destruct Hl2 as [|b l2 Hl2 Hb].
  { specialize (Heq a). rewrite filter_nil, filter_cons_True in Heq by done.
    done. }
  assert (R b a) as Hba.
  { assert (a ∈ filter (tied R a) (b :: l2)) as [_ Hin]%list_elem_of_filter.
    { rewrite <-Heq, filter_cons_True by done. left. }
    apply elem_of_cons in Hin as [->|Hin]; [done|].
    rewrite Forall_forall in Hb. auto. }
  assert (R a b) as Hab.
  { assert (b ∈ filter (tied R b) (a :: l1)) as [_ Hin]%list_elem_of_filter.
    { rewrite Heq, filter_cons_True by done. left. }
    apply elem_of_cons in Hin as [->|Hin]; [done|].
    rewrite Forall_forall in Ha. auto. }
  assert (a = b) as <-.
  { specialize (Heq a).
    rewrite !filter_cons_True in Heq by done. by injection Heq. }
  f_equal. apply IH; [done|]. intros x. specialize (Heq x).
  rewrite !filter_cons in Heq. destruct (decide (tied R x a)); [|done].
  by injection Heq.
Qed.

Lemma sort_is_the_stable_sort l l' :
  StronglySorted R l' →
  (∀ x, filter (tied R x) l' = filter (tied R x) l) →
  l' = JS.sort comparefn l.
Proof.
  intros Hl' Hties. apply stable_sorted_unique; [done|apply sort_sorted|].
  intros x. by rewrite sort_keeps_ties.
Qed.

End SortFacts.

(** ** The order on episodes *)

Lemma compareEpisodes_spec a b : compareEpisodes a b <= 0 ↔ ep_le a b.
Proof.
  unfold compareEpisodes, ep_le.
  destruct (decide (Episode.season a ≠ Episode.season b)); lia.
Qed.

#[local] Instance ep_le_total : Total ep_le.
Proof. intros a b. unfold ep_le. lia. Qed.

#[local] Instance ep_le_trans : Transitive ep_le.
Proof. intros a b c. unfold ep_le. lia. Qed.

#[local] Instance ep_le_refl : Reflexive ep_le.
Proof. intros a. unfold ep_le. lia. Qed.

#[local] Instance ep_le_dec a b : Decision (ep_le a b).
Proof. unfold ep_le. apply _. Defined.

(** The list [handleAddEpisode] stores is the stable sort of its
    argument, whichever way the engine computes it. *)
Lemma sortEpisodes_is_the_stable_sort l l' :
  StronglySorted ep_le l' →
  (∀ x, filter (tied ep_le x) l' = filter (tied ep_le x) l) →
  l' = JS.sort compareEpisodes l.
Proof.
  apply sort_is_the_stable_sort; [apply compareEpisodes_spec|apply _..].
Qed.

Lemma sortEpisodes_sorted l :
  StronglySorted ep_le (JS.sort compareEpisodes l).
Proof. apply sort_sorted; [apply compareEpisodes_spec|apply _..]. Qed.

Lemma sortEpisodes_perm l : JS.sort compareEpisodes l ≡ₚ l.
Proof. apply sort_perm. Qed.

Lemma sortEpisodes_id l :
  StronglySorted ep_le l → JS.sort compareEpisodes l = l.
Proof. apply sort_of_sorted, compareEpisodes_spec. Qed.

Lemma ofSeason_sortEpisodes s l :
  ofSeason s (JS.sort compareEpisodes l)
  = JS.sort compareEpisodes (ofSeason s l).
Proof.
  unfold ofSeason.
  apply (filter_sort compareEpisodes ep_le compareEpisodes_spec).
Qed.

Lemma seqZ_sorted m n : StronglySorted Z.le (seqZ m n).
Proof.
  destruct (decide (n <= 0)) as [?|Hn]; [rewrite seqZ_nil by done; constructor|].
  rewrite <-(Z2Nat.id n) by lia. generalize (Z.to_nat n) as k. clear.
  induction k as [|k IH]; [rewrite seqZ_nil by done; constructor|].
  rewrite seqZ_S. apply StronglySorted_app_2; [|done|repeat constructor].
  intros x y Hx%elem_of_seqZ ->%list_elem_of_singleton. lia.
Qed.

(** Episodes of one season are in order as soon as their numbers are. *)
Lemma one_season_sorted s (m : list Episode) :
  Forall (λ e, Episode.season e = s) m →
  StronglySorted Z.le (Episode.number <$> m) →
  StronglySorted ep_le m.
Proof.
  induction 1 as [|e m He Hm IH]; csimpl; [constructor|].
  intros [Hhd Htl]%StronglySorted_cons.
  constructor; [by apply IH|].
  rewrite Forall_fmap in Hhd.
  rewrite Forall_forall in Hhd, Hm |- *. intros e' He'.
  right. split; [by rewrite (Hm e' He')|by apply Hhd].
Qed.

Lemma ofSeason_Forall s l : Forall (λ e, Episode.season e = s) (ofSeason s l).
Proof.
  apply Forall_forall. by intros e [? _]%list_elem_of_filter.
Qed.

Lemma ofSeason_snoc s l e :
  ofSeason s (l ++ [e])
  = ofSeason s l ++ (if decide (Episode.season e = s) then [e] else []).
Proof.
  unfold ofSeason. rewrite filter_app, filter_cons, filter_nil.
  by destruct (decide _).
Qed.

(** ** Numbering *)

(** Adding an episode numbered one more than its season holds keeps the
    numbering dense. *)
Lemma dense_add l e :
  dense l →
  Episode.number e
    = Z.of_nat (length (ofSeason (Episode.season e) l)) + 1 →
  dense (JS.sort compareEpisodes (l ++ [e])).
Proof.
  intros Hd Hn s. unfold numbersOf.
  rewrite ofSeason_sortEpisodes, ofSeason_snoc.
  set (m := ofSeason s l ++ _).
  assert (Episode.number <$> m = seqZ 1 (Z.of_nat (length m))) as Hm.
  { subst m. rewrite fmap_app, length_app. fold (numbersOf s l).
    rewrite Hd. destruct (decide (Episode.season e = s)) as [<-|]; simpl.
    - rewrite Hn, Nat.add_1_r, seqZ_S. do 2 f_equal. lia.
    - by rewrite app_nil_r, Nat.add_0_r. }
  rewrite sortEpisodes_id; [done|].
  apply (one_season_sorted s).
  - subst m. apply Forall_app. split; [apply ofSeason_Forall|].
    destruct (decide _); by repeat constructor.
  - rewrite Hm. apply seqZ_sorted.
Qed.

Lemma length_ofSeason_add s l e :
  length (ofSeason s (JS.sort compareEpisodes (l ++ [e])))
  = (length (ofSeason s l)
     + if decide (Episode.season e = s) then 1 else 0)%nat.
Proof.
  rewrite ofSeason_sortEpisodes, sortEpisodes_perm, ofSeason_snoc.
  rewrite length_app. by destruct (decide _).
Qed.

(** Dense numbering leaves no two episodes with the same season and
    number. *)
Lemma NoDup_key_of_numbers l :
  (∀ s, NoDup (numbersOf s l)) → NoDup (key <$> l).
Proof.
  induction l as [|e l IH]; intros Hnd; csimpl; [constructor|].
  constructor.
  - intros (e' & Hk & He')%list_elem_of_fmap.
    injection Hk as Hs Hn.
    specialize (Hnd (Episode.season e)).
    unfold numbersOf, ofSeason in Hnd.
    rewrite filter_cons_True in Hnd by done. csimpl in Hnd.
    apply NoDup_cons in Hnd as [Hnotin _]. apply Hnotin.
    rewrite Hn. apply list_elem_of_fmap_2, list_elem_of_filter. done.
  - apply IH. intros s. specialize (Hnd s).
    unfold numbersOf, ofSeason in Hnd |- *.
    rewrite filter_cons in Hnd. destruct (decide _); [|done].
    csimpl in Hnd. by apply NoDup_cons in Hnd as [_ ?].
Qed.

Lemma dense_NoDup_key l : dense l → NoDup (key <$> l).
Proof.
  intros Hd. apply NoDup_key_of_numbers. intros s.
  rewrite Hd. apply NoDup_seqZ.
Qed.

(** ** The handlers, case by case *)

Lemma falsy_string_true s : JS.falsy_string s = true ↔ s = "".
Proof. by destruct s. Qed.

Lemma falsy_string_false s : JS.falsy_string s = false ↔ s ≠ "".
Proof. by destruct s. Qed.

Lemma handleAddEpisode_accept now st :
  newEpTitle st ≠ "" → newEpCode st ≠ "" →
  handleAddEpisode now st
  = st |> setEpisodes (JS.sort compareEpisodes (episodes st ++ [newEp now st]))
       |> setNewEpTitle "" |> setNewEpDuration "" |> setNewEpCode "".
Proof.
  intros Ht%falsy_string_false Hc%falsy_string_false.
  unfold handleAddEpisode. by rewrite Ht, Hc.
Qed.

Lemma handleAddEpisode_reject now st :
  newEpTitle st = "" ∨ newEpCode st = "" → handleAddEpisode now st = st.
Proof.
  unfold handleAddEpisode.
  intros [->%falsy_string_true| ->%falsy_string_true]; [done|].
  by rewrite orb_true_r.
Qed.

Lemma newEp_number now st :
  Episode.number (newEp now st)
  = Z.of_nat (length (ofSeason (Episode.season (newEp now st)) (episodes st)))
    + 1.
Proof. done. Qed.

Lemma handleAddEpisode_dense now st :
  dense (episodes st) → dense (episodes (handleAddEpisode now st)).
Proof.
  intros Hd. unfold handleAddEpisode.
  destruct (_ || _); [done|]. simpl.
  apply dense_add; [done|apply newEp_number].
Qed.

Lemma handleAddEpisode_sorted now st :
  StronglySorted ep_le (episodes st) →
  StronglySorted ep_le (episodes (handleAddEpisode now st)).
Proof.
  intros Hs. unfold handleAddEpisode.
  destruct (_ || _); [done|]. simpl. apply sortEpisodes_sorted.
Qed.

Lemma removeEpisode_sorted id st :
  StronglySorted ep_le (episodes st) →
  StronglySorted ep_le (episodes (removeEpisode id st)).
Proof. simpl. apply StronglySorted_filter. Qed.

Lemma run_snoc st evs ev : run st (evs ++ [ev]) = step (run st evs) ev.
Proof. unfold run. by rewrite foldl_app. Qed.

Lemma addAll_snoc st adds a : addAll st (adds ++ [a]) = add (addAll st adds) a.
Proof. unfold addAll. by rewrite foldl_app. Qed.

(** The episode an [add] request appends, before the sort. *)
Lemma add_episodes st a :
  add_title a ≠ "" → add_code a ≠ "" →
  ∃ e,
    episodes (add st a) = JS.sort compareEpisodes (episodes st ++ [e])
    ∧ Episode.season e = seasonNumOf (add_season a)
    ∧ Episode.number e
      = Z.of_nat (length (ofSeason (Episode.season e) (episodes st))) + 1.
Proof.
  intros Ht Hc. unfold add.
  rewrite handleAddEpisode_accept by done.
  eexists. split; [reflexivity|]. done.
Qed.

Lemma addAll_dense_count st adds :
  dense (episodes st) →
  Forall (λ a, add_title a ≠ "" ∧ add_code a ≠ "") adds →
  dense (episodes (addAll st adds))
  ∧ ∀ s, length (ofSeason s (episodes (addAll st adds)))
         = (length (ofSeason s (episodes st))
            + length (filter (λ a, seasonNumOf (add_season a) = s) adds))%nat.
Proof.
  intros Hd. induction adds as [|a adds IH] using rev_ind; intros Hv.
  { split; [done|]. intros s. simpl. lia. }
  apply Forall_app in Hv as [Hv [[Ht Hc] _]%Forall_cons].
  destruct (IH Hv) as [IHd IHc]. rewrite addAll_snoc.
  destruct (add_episodes (addAll st adds) a Ht Hc) as (e & -> & Hs & Hn).
  split; [by apply dense_add|].
  intros s. rewrite length_ofSeason_add, IHc, Hs.
  rewrite filter_app, length_app, filter_cons, filter_nil.
  destruct (decide _); simpl; lia.
Qed.

(** * The claims *)

(** C1.  Dense numbering under adds.  Starting from an empty episode
    list, after any sequence of [add] requests with non-empty title and
    code (and no removal in between), the numbers of each season [s],
    read in list order, are exactly 1, 2, .., K, where K is the number of
    requests whose season input parses to [s]. *)
Theorem C1_add_dense_numbering (st : State) (adds : list AddRequest) :
  episodes st = [] →
  Forall (λ a, add_title a ≠ "" ∧ add_code a ≠ "") adds →
  ∀ s, numbersOf s (episodes (addAll st adds))
       = seqZ 1 (Z.of_nat
                   (length (filter (λ a, seasonNumOf (add_season a) = s)
                              adds))).
Proof.
  intros Hnil Hv s.
  destruct (addAll_dense_count st adds) as [Hd Hc]; [|done|].
  { intros s'. by rewrite Hnil. }
  rewrite Hd, Hc, Hnil. done.
Qed.

Lemma C1_witness :
  numbersOf 2
    (episodes (addAll initialState
       [mkAdd 1 "2" "S2E1" "" "X"; mkAdd 2 "1" "S1E1" "24m" "Y";
        mkAdd 3 "2" "S2E2" "" "Z"]))
  = seqZ 1 2.
Proof.
  apply (C1_add_dense_numbering initialState
           [mkAdd 1 "2" "S2E1" "" "X"; mkAdd 2 "1" "S1E1" "24m" "Y";
            mkAdd 3 "2" "S2E2" "" "Z"]); [reflexivity|].
  repeat constructor; discriminate.
Defined.

(** C2.  Order.  An accepted add (non-empty title and code) leaves the
    list sorted by season, then number, whatever the list was before;
    every state the builder reaches has its list sorted; and a remove
    returns the remaining elements in the order they had, so in
    particular a sorted list stays sorted. *)
Theorem C2_sorted_after_add_order_kept_by_remove :
  (∀ now st, newEpTitle st ≠ "" → newEpCode st ≠ "" →
     StronglySorted ep_le (episodes (handleAddEpisode now st)))
  ∧ (∀ st, reachable st → StronglySorted ep_le (episodes st))
  ∧ (∀ id st,
       episodes (removeEpisode id st)
       = filter (λ ep, Episode.id ep ≠ id) (episodes st)
       ∧ sublist (episodes (removeEpisode id st)) (episodes st)
       ∧ (StronglySorted ep_le (episodes st) →
          StronglySorted ep_le (episodes (removeEpisode id st)))).
Proof.
  split; [|split].
  - intros now st Ht Hc. rewrite handleAddEpisode_accept by done.
    simpl. apply sortEpisodes_sorted.
  - intros st [evs ->].
    induction evs as [|ev evs IH] using rev_ind; [constructor|].
    rewrite run_snoc. destruct ev; simpl; try done.
    + by apply handleAddEpisode_sorted.
    + by apply StronglySorted_filter.
  - intros id st. split; [done|]. split.
    + simpl. apply sublist_filter.
    + apply removeEpisode_sorted.
Qed.

Lemma C2_witness :
  StronglySorted ep_le
    (episodes (handleAddEpisode 2
       (initialState
          |> setEpisodes [Episode.mk "a" 1 2 "S2E1" "N/A" "X"]
          |> setNewEpTitle "S1E1" |> setNewEpCode "Y"))).
Proof.
  apply (proj1 C2_sorted_after_add_order_kept_by_remove); discriminate.
Defined.

(** C3.  Validation.  The guard of [handlePublish] rejects exactly when
    the title is empty, or the thumbnail is empty, or the code and the
    episode list are both empty.  When it rejects, the handler shows the
    notice and does nothing else; otherwise the gateway call is
    issued. *)
Theorem C3_validate_iff (r : GatewayResult) (st : State) :
  let fails :=
    title st = "" ∨ thumbnail st = ""
    ∨ (telegramCode st = "" ∧ episodes st = []) in
  (publishRejected st = true ↔ fails)
  ∧ (publishRejected st = false ↔ ¬ fails)
  ∧ (fails →
     handlePublish r st
     = (st, [Alert "Title, Thumbnail and at least one Link (Code or Episode) are required"]))
  ∧ (¬ fails →
     ∃ st' effs, handlePublish r st = (st', gatewayCall st :: effs)).
Proof.
  intros fails.
  assert (publishRejected st = true ↔ fails) as Hiff.
  { unfold publishRejected, fails.
    rewrite !orb_true_iff, andb_true_iff, !falsy_string_true.
    rewrite Nat.eqb_eq, length_zero_iff_nil. tauto. }
  split; [done|]. split; [|split].
  - rewrite <-Hiff. by destruct (publishRejected st).
  - intros Hf%Hiff. unfold handlePublish, handlePublish_begin.
    by rewrite Hf.
  - intros Hf. assert (publishRejected st = false) as Hr.
    { destruct (publishRejected st); [|done]. exfalso. by apply Hf, Hiff. }
    unfold handlePublish, handlePublish_begin. rewrite Hr.
    destruct (handlePublish_settle _ _ _) as [st2 eff2]. by eexists _, _.
Qed.

Lemma C3_witness :
  (publishRejected (initialState |> setTitle "Title" |> setThumbnail "thumb.jpg")
   = true)
  ∧ (publishRejected
       (initialState |> setTitle "Title" |> setThumbnail "thumb.jpg"
          |> setEpisodes [Episode.mk "1" 1 1 "Pilot" "N/A" "ABC"])
     = false).
Proof.
  split.
  - apply (C3_validate_iff Resolved
             (initialState |> setTitle "Title" |> setThumbnail "thumb.jpg")).
    right. right. split; reflexivity.
  - apply (C3_validate_iff Resolved
             (initialState |> setTitle "Title" |> setThumbnail "thumb.jpg"
                |> setEpisodes [Episode.mk "1" 1 1 "Pilot" "N/A" "ABC"])).
    intros [?|[?|[_ ?]]]; discriminate.
Defined.

(** C7.  An add with an empty title or an empty delivery code changes
    nothing: the whole state, episode list included, is as before. *)
Theorem C7_add_rejected_is_noop (now : Z) (st : State) :
  newEpTitle st = "" ∨ newEpCode st = "" →
  handleAddEpisode now st = st
  ∧ episodes (handleAddEpisode now st) = episodes st.
Proof. intros H. by rewrite handleAddEpisode_reject. Qed.

Lemma C7_witness :
  handleAddEpisode 5
    (initialState |> setEpisodes [Episode.mk "1" 1 1 "Pilot" "N/A" "ABC"]
       |> setNewEpTitle "Episode 2")
  = (initialState |> setEpisodes [Episode.mk "1" 1 1 "Pilot" "N/A" "ABC"]
       |> setNewEpTitle "Episode 2").
Proof.
  apply (C7_add_rejected_is_noop 5
           (initialState
              |> setEpisodes [Episode.mk "1" 1 1 "Pilot" "N/A" "ABC"]
              |> setNewEpTitle "Episode 2")).
  right. reflexivity.
Defined.

(** C8.  A failed gateway call keeps the session.  When the awaited
    call rejects, the only setter applied is [setLoading(false)]: the
    form fields, the episode list and the pending inputs are those of
    the state at that time, so publishing again issues the same call.
    [resetForm] is applied only when the call resolves. *)
Theorem C8_publish_failure_keeps_session :
  (∀ closure cur,
     (handlePublish_settle Rejected closure cur).1 = setLoading false cur
     ∧ sameSession (handlePublish_settle Rejected closure cur).1 cur)
  ∧ (∀ st,
       sameSession (handlePublish Rejected st).1 st
       ∧ gatewayCall (handlePublish Rejected st).1 = gatewayCall st
       ∧ publishRejected (handlePublish Rejected st).1 = publishRejected st
       ∧ (loading st = false → (handlePublish Rejected st).1 = st))
  ∧ (∀ r closure cur,
       ¬ sameSession (handlePublish_settle r closure cur).1 cur →
       r = Resolved)
  ∧ (∀ closure cur,
       (handlePublish_settle Resolved closure cur).1
       = (resetForm cur |> setLoading false)).
Proof.
  split; [|split; [|split]].
  - intros closure cur. split; [done|]. by repeat split.
  - intros st. unfold handlePublish, handlePublish_begin.
    destruct (publishRejected st) eqn:Hr; simpl.
    + rewrite Hr. by repeat split.
    + repeat split; try done. intros Hl.
      destruct st; simpl in *. by subst.
  - intros [] closure cur Hne; [done|].
    destruct Hne. by repeat split.
  - done.
Qed.

Lemma C8_witness :
  (handlePublish Rejected
     (initialState |> setTitle "Title" |> setThumbnail "thumb.jpg"
        |> setTelegramCode "CODE123")).1
  = (initialState |> setTitle "Title" |> setThumbnail "thumb.jpg"
        |> setTelegramCode "CODE123").
Proof.
  apply (proj1 (proj2 C8_publish_failure_keeps_session)). reflexivity.
Defined.

(** C9.  The [episodes] field of the record.  [movieData] carries the
    current episode list when it is non-empty and [null] otherwise, and
    [null] is not the empty list; this record is the one handed to the
    gateway. *)
Theorem C9_movieData_episodes (st : State) :
  (episodes st ≠ [] →
   MovieData.episodes (movieData st) = Some (episodes st))
  ∧ (episodes st = [] →
     MovieData.episodes (movieData st) = None
     ∧ MovieData.episodes (movieData st) ≠ Some [])
  ∧ (publishRejected st = false →
     (handlePublish_begin st).2 = [gatewayCall st]
     ∧ (gatewayCall st = AddDoc (movieData st) "0" ServerTimestamp
        ∨ ∃ i, gatewayCall st = UpdateDoc i (movieData st))).
Proof.
  split; [|split].
  - unfold movieData. simpl. by destruct (episodes st).
  - intros Hnil. unfold movieData. simpl. by rewrite Hnil.
  - intros Hr. unfold handlePublish_begin, gatewayCall. rewrite Hr.
    split; [done|]. destruct (updateTarget st); eauto.
Qed.

Lemma C9_witness :
  MovieData.episodes
    (movieData
       (initialState |> setEpisodes [Episode.mk "1" 1 1 "Pilot" "N/A" "ABC"]))
  = Some [Episode.mk "1" 1 1 "Pilot" "N/A" "ABC"].
Proof.
  apply (C9_movieData_episodes
           (initialState
              |> setEpisodes [Episode.mk "1" 1 1 "Pilot" "N/A" "ABC"])).
  discriminate.
Defined.

(** C10.  After an accepted add (non-empty title and code) the pending
    title, duration and code inputs are empty and the pending season
    input is what it was; no other cell but the episode list
    changes. *)
Theorem C10_add_clears_inputs (now : Z) (st : State) :
  newEpTitle st ≠ "" → newEpCode st ≠ "" →
  let st' := handleAddEpisode now st in
  newEpTitle st' = "" ∧ newEpDuration st' = "" ∧ newEpCode st' = ""
  ∧ newEpSeason st' = newEpSeason st
  ∧ st' |> setEpisodes (episodes st)
        |> setNewEpTitle (newEpTitle st)
        |> setNewEpDuration (newEpDuration st)
        |> setNewEpCode (newEpCode st) = st.
Proof.
  intros Ht Hc st'. subst st'. rewrite handleAddEpisode_accept by done.
  repeat split. by destruct st.
Qed.

Lemma C10_witness :
  newEpSeason
    (handleAddEpisode 7
       (initialState |> setNewEpSeason "2" |> setNewEpTitle "S2E1"
          |> setNewEpDuration "24m" |> setNewEpCode "X"))
  = "2".
Proof.
  apply (C10_add_clears_inputs 7
           (initialState |> setNewEpSeason "2" |> setNewEpTitle "S2E1"
              |> setNewEpDuration "24m" |> setNewEpCode "X"));
    discriminate.
Defined.

(** C4, as stated, fails: add two episodes to season 1, remove the
    first, add a third.  The third is numbered 2, like the one that
    stayed. *)
Lemma C4_counterexample :
  ¬ (∀ st, reachable st → NoDup (key <$> episodes st)).
Proof.
  intros Hall.
  pose (evs :=
    [ChangeNewEpTitle "Pilot"; ChangeNewEpCode "ABC"; ClickAddEpisode 1;
     ChangeNewEpTitle "Episode 2"; ChangeNewEpCode "DEF"; ClickAddEpisode 2;
     ClickRemoveEpisode "1";
     ChangeNewEpTitle "Episode 3"; ChangeNewEpCode "GHI"; ClickAddEpisode 3]).
  specialize (Hall (run initialState evs) (ex_intro _ evs eq_refl)).
  assert (key <$> episodes (run initialState evs) = [(1, 2); (1, 2)]) as Hk
    by (vm_compute; reflexivity).
  rewrite Hk in Hall. apply NoDup_cons in Hall as [Hnotin _].
  apply Hnotin. left.
Qed.

Lemma run_no_remove_dense st evs :
  dense (episodes st) →
  Forall (λ ev, is_remove ev = false) evs →
  dense (episodes (run st evs)).
Proof.
  intros Hd. induction evs as [|ev evs IH] using rev_ind; [done|].
  intros [Hevs [Hev _]%Forall_cons]%Forall_app.
  rewrite run_snoc. destruct ev; simpl; try by apply IH.
  - by apply handleAddEpisode_dense, IH.
  - done.
Qed.

Lemma run_no_add_NoDup st evs :
  NoDup (key <$> episodes st) →
  Forall (λ ev, is_add ev = false) evs →
  NoDup (key <$> episodes (run st evs)).
Proof.
  intros Hd. induction evs as [|ev evs IH] using rev_ind; [done|].
  intros [Hevs [Hev _]%Forall_cons]%Forall_app.
  rewrite run_snoc. destruct ev; simpl; try by apply IH.
  - done.
  - eapply sublist_NoDup; [by apply IH|].
    apply fmap_sublist, sublist_filter.
Qed.

(** C4, amended.  In a run of the builder where no add comes after a
    remove (any adds and input edits first, then any removes and input
    edits), the (season, number) pairs of the list are pairwise
    distinct. *)
Theorem C4_keys_distinct_adds_then_removes (evs1 evs2 : list Event) :
  Forall (λ ev, is_remove ev = false) evs1 →
  Forall (λ ev, is_add ev = false) evs2 →
  NoDup (key <$> episodes (run initialState (evs1 ++ evs2))).
Proof.
  intros H1 H2. unfold run. rewrite foldl_app.
  apply run_no_add_NoDup; [|done].
  apply dense_NoDup_key, run_no_remove_dense; [|done].
  intros s. reflexivity.
Qed.

Lemma C4_witness :
  NoDup (key <$> episodes (run initialState
    ([ChangeNewEpTitle "Pilot"; ChangeNewEpCode "ABC"; ClickAddEpisode 1;
      ChangeNewEpTitle "Episode 2"; ChangeNewEpCode "DEF"; ClickAddEpisode 2]
     ++ [ClickRemoveEpisode "1"]))).
Proof.
  apply (C4_keys_distinct_adds_then_removes
    [ChangeNewEpTitle "Pilot"; ChangeNewEpCode "ABC"; ClickAddEpisode 1;
     ChangeNewEpTitle "Episode 2"; ChangeNewEpCode "DEF"; ClickAddEpisode 2]
    [ClickRemoveEpisode "1"]);
    repeat constructor.
Defined.

(** The list after an accepted [add], with the appended episode spelled
    out. *)
Lemma add_episodes_eq st a :
  add_title a ≠ "" → add_code a ≠ "" →
  episodes (add st a)
  = JS.sort compareEpisodes
      (episodes st ++
       [{| Episode.id := JS.toString (add_now a);
           Episode.number :=
             Z.of_nat (length (ofSeason (seasonNumOf (add_season a))
                                 (episodes st))) + 1;
           Episode.season := seasonNumOf (add_season a);
           Episode.title := add_title a;
           Episode.duration := JS.or_string (add_duration a) "N/A";
           Episode.telegramCode := add_code a |}]).
Proof.
  intros Ht Hc. unfold add. by rewrite handleAddEpisode_accept.
Qed.

(** C5, as stated, fails: in the scenario the new episode is numbered 2,
    not 3, and the list reads (1,2), (1,2). *)
Lemma C5_counterexample :
  let st2 :=
    addAll initialState
      [mkAdd 1 "1" "Pilot" "" "ABC"; mkAdd 2 "1" "Episode 2" "" "DEF"] in
  let st3 := removeEpisode (JS.toString 1) st2 in
  let st4 := add st3 (mkAdd 3 "1" "Episode 3" "" "GHI") in
  key <$> episodes st2 = [(1, 1); (1, 2)]
  ∧ (Episode.id <$> ofSeason 1 (episodes st2)) !! 0%nat = Some (JS.toString 1)
  ∧ key <$> episodes st4 = [(1, 2); (1, 2)]
  ∧ key <$> episodes st4 ≠ [(1, 2); (1, 3)].
Proof. vm_compute. repeat split; discriminate. Qed.

(** C5, amended.  Starting from an empty list, add two episodes to
    season 1 (at different times, so that their ids differ): they are
    numbered 1 and 2.  Remove the one numbered 1 and add a new episode to
    season 1: it is numbered 2, one more than the single episode season 1
    then holds, and the list reads (1,2), (1,2), the older episode
    first.  Nothing is renumbered by the removal. *)
Theorem C5_remove_then_add_reuses_number (st : State) (a1 a2 a3 : AddRequest) :
  episodes st = [] →
  Forall (λ a, add_title a ≠ "" ∧ add_code a ≠ ""
               ∧ seasonNumOf (add_season a) = 1) [a1; a2; a3] →
  add_now a1 ≠ add_now a2 →
  let st2 := addAll st [a1; a2] in
  let st3 := removeEpisode (JS.toString (add_now a1)) st2 in
  let st4 := add st3 a3 in
  key <$> episodes st2 = [(1, 1); (1, 2)]
  ∧ key <$> episodes st3 = [(1, 2)]
  ∧ key <$> episodes st4 = [(1, 2); (1, 2)]
  ∧ Episode.id <$> episodes st4
    = [JS.toString (add_now a2); JS.toString (add_now a3)].
Proof.
  intros Hnil Hv Hne.
  apply Forall_cons in Hv as [(Ht1 & Hc1 & Hs1) Hv].
  apply Forall_cons in Hv as [(Ht2 & Hc2 & Hs2) Hv].
  apply Forall_cons in Hv as [(Ht3 & Hc3 & Hs3) _].
  assert (JS.toString (add_now a2) ≠ JS.toString (add_now a1)) as Hid.
  { intros Heq. apply Hne. symmetry. by apply (inj pretty). }
  intros st2 st3 st4.
  assert (episodes st2
          = [Episode.mk (JS.toString (add_now a1)) 1 1 (add_title a1)
               (JS.or_string (add_duration a1) "N/A") (add_code a1);
             Episode.mk (JS.toString (add_now a2)) 2 1 (add_title a2)
               (JS.or_string (add_duration a2) "N/A") (add_code a2)]) as E2.
  { subst st2. unfold addAll. simpl foldl.
    rewrite (add_episodes_eq _ a2) by done.
    rewrite (add_episodes_eq _ a1) by done.
    rewrite Hnil, Hs1, Hs2. reflexivity. }
  assert (episodes st3
          = [Episode.mk (JS.toString (add_now a2)) 2 1 (add_title a2)
               (JS.or_string (add_duration a2) "N/A") (add_code a2)]) as E3.
  { subst st3. unfold removeEpisode. simpl episodes. rewrite E2.
    rewrite filter_cons_False by (simpl; tauto).
    by rewrite filter_cons_True, filter_nil. }
  assert (episodes st4
          = [Episode.mk (JS.toString (add_now a2)) 2 1 (add_title a2)
               (JS.or_string (add_duration a2) "N/A") (add_code a2);
             Episode.mk (JS.toString (add_now a3)) 2 1 (add_title a3)
               (JS.or_string (add_duration a3) "N/A") (add_code a3)]) as E4.
  { subst st4. rewrite (add_episodes_eq _ a3) by done.
    rewrite E3, Hs3. reflexivity. }
  rewrite E2, E3, E4. done.
Qed.

Lemma C5_witness :
  key <$> episodes
    (add (removeEpisode (JS.toString 1)
            (addAll initialState
               [mkAdd 1 "1" "Pilot" "" "ABC";
                mkAdd 2 "1" "Episode 2" "" "DEF"]))
       (mkAdd 3 "1" "Episode 3" "" "GHI"))
  = [(1, 2); (1, 2)].
Proof.
  apply (C5_remove_then_add_reuses_number initialState
           (mkAdd 1 "1" "Pilot" "" "ABC") (mkAdd 2 "1" "Episode 2" "" "DEF")
           (mkAdd 3 "1" "Episode 3" "" "GHI")).
  - reflexivity.
  - repeat constructor; discriminate.
  - discriminate.
Defined.

(** [parseInt] on some season inputs. *)
Example parseInt_examples :
  JS.parseInt "1" = Some 1 ∧ JS.parseInt "12" = Some 12
  ∧ JS.parseInt " 7" = Some 7 ∧ JS.parseInt "+2" = Some 2
  ∧ JS.parseInt "3rd" = Some 3 ∧ JS.parseInt "1.5" = Some 1
  ∧ JS.parseInt "0x1A" = Some 26 ∧ JS.parseInt "-3" = Some (-3)
  ∧ JS.parseInt "0" = Some 0 ∧ JS.parseInt "-0" = Some 0
  ∧ JS.parseInt "" = None ∧ JS.parseInt "S1" = None
  ∧ JS.parseInt "-" = None ∧ JS.parseInt "0x" = None.
Proof. vm_compute. repeat split. Qed.

(** C6, as stated, fails: the season input "-3" parses to -3, which is
    stored as it is; the stored season is not positive. *)
Lemma C6_counterexample :
  let st :=
    initialState |> setNewEpSeason "-3" |> setNewEpTitle "Pilot"
                 |> setNewEpCode "ABC" in
  JS.parseInt (newEpSeason st) = Some (-3)
  ∧ Episode.season <$> episodes (handleAddEpisode 1 st) = [-3]
  ∧ ¬ Forall (λ e, 0 < Episode.season e) (episodes (handleAddEpisode 1 st)).
Proof.
  split; [reflexivity|]. split; [reflexivity|].
  intros [Hpos _]%Forall_cons. vm_compute in Hpos. discriminate.
Qed.

(** C6, amended.  Take a season input that [parseInt] reads as nothing
    or as a safe integer (magnitude at most 2^53 - 1).  An accepted add
    then appends one episode whose season is a non-zero safe integer:
    the value [parseInt] gives for the input when that value is not zero
    (positive or negative), and 1 when the input does not parse (empty
    input included) or parses to zero.  In particular an input that
    parses to a positive safe integer is stored as that integer. *)
Theorem C6_season_coercion (now : Z) (st : State) :
  newEpTitle st ≠ "" → newEpCode st ≠ "" →
  (∀ n, JS.parseInt (newEpSeason st) = Some n → isSafeInteger n) →
  let s := seasonNumOf (newEpSeason st) in
  episodes (handleAddEpisode now st) ≡ₚ newEp now st :: episodes st
  ∧ Episode.season (newEp now st) = s
  ∧ s ≠ 0
  ∧ isSafeInteger s
  ∧ (∀ n, JS.parseInt (newEpSeason st) = Some n → n ≠ 0 → s = n)
  ∧ (∀ n, JS.parseInt (newEpSeason st) = Some n → 0 < n → s = n ∧ 0 < s)
  ∧ (JS.parseInt (newEpSeason st) = None
     ∨ JS.parseInt (newEpSeason st) = Some 0 → s = 1).
Proof.
  intros Ht Hc Hsafe s. split.
  { rewrite handleAddEpisode_accept by done. simpl.
    rewrite sortEpisodes_perm. by rewrite Permutation_app_comm. }
  split; [done|]. subst s. unfold seasonNumOf, JS.or_number.
  assert (isSafeInteger 1) as Hone
    by (unfold isSafeInteger, MAX_SAFE_INTEGER; lia).
  destruct (JS.parseInt (newEpSeason st)) as [v|].
  - specialize (Hsafe v eq_refl).
    destruct (Z.eqb_spec v 0) as [->|Hv].
    + split; [done|]. split; [done|].
      split; [intros n [= <-] Hn; by destruct Hn|].
      split; [intros n [= <-] Hn; lia|done].
    + split; [done|]. split; [done|]. split; [by intros n [= <-]|].
      split; [intros n [= <-] Hn; by split|].
      intros [?|[= ->]]; done.
  - split; [done|]. split; [done|]. split; [done|]. split; [done|]. done.
Qed.

Lemma C6_witness :
  Episode.season
    (newEp 1 (initialState |> setNewEpSeason "2" |> setNewEpTitle "Pilot"
                |> setNewEpCode "ABC"))
  = 2.
Proof.
  refine (proj1 (proj2 (C6_season_coercion 1
            (initialState |> setNewEpSeason "2" |> setNewEpTitle "Pilot"
               |> setNewEpCode "ABC") _ _ _))).
  - discriminate.
  - discriminate.
  - intros n Hn. vm_compute in Hn. injection Hn as <-.
    unfold isSafeInteger, MAX_SAFE_INTEGER. lia.
Defined.

(** * Further properties of the component *)

(** ** More on lists and on the sort *)

Lemma filter_all {A} (P : A → Prop) `{!∀ x, Decision (P x)} l :
  Forall P l → filter P l = l.
Proof.
  induction 1 as [|x l Hx Hl IH]; [done|].
  by rewrite filter_cons_True, IH.
Qed.

Lemma filter_none {A} (P : A → Prop) `{!∀ x, Decision (P x)} l :
  Forall (λ x, ¬ P x) l → filter P l = [].
Proof.
  induction 1 as [|x l Hx Hl IH]; [done|].
  by rewrite filter_cons_False, IH.
Qed.

Section SortPlace.
Context {A : Type} (comparefn : A → A → Z) (R : relation A).
Context (comparefn_spec : ∀ x y, comparefn x y <= 0 ↔ R x y).
Context `{!Total R, !Transitive R, !∀ x y, Decision (R x y)}.

(** Sorting a list that is in order with one element appended puts that
    element behind everything it does not precede and leaves the rest
    where it was. *)
Lemma sort_snoc_sorted l e :
  StronglySorted R l →
  JS.sort comparefn (l ++ [e])
  = filter (λ x, R x e) l ++ e :: filter (λ x, ¬ R x e) l.
Proof.
  induction 1 as [|x l Hl IH Hx]; [done|].
  simpl. rewrite IH. destruct (decide (R x e)) as [Hxe|Hxe].
  - rewrite filter_cons_True, filter_cons_False by tauto.
    apply (sort_insert_front comparefn R comparefn_spec).
    apply Forall_app. split; [by apply Forall_filter_keep|].
    constructor; [done|by apply Forall_filter_keep].
  - assert (Forall (λ y, ¬ R y e) l) as Hall.
    { eapply Forall_impl; [exact Hx|]. intros y Hxy Hye.
      apply Hxe. by trans y. }
    rewrite filter_cons_False, filter_cons_True by done.
    rewrite (filter_none (λ y, R y e)) by done.
    rewrite (filter_all (λ y, ¬ R y e)) by done. simpl.
    assert ((comparefn x e <=? 0) = false) as ->.
    { apply Z.leb_gt. destruct (decide (comparefn x e <= 0)) as [Hc|]; [|lia].
      by apply comparefn_spec in Hc. }
    f_equal. by apply (sort_insert_front comparefn R comparefn_spec).
Qed.

(** In a list in order, the elements that do not come after [e] are a
    front part of the list. *)
Lemma sorted_split l e :
  StronglySorted R l →
  l = filter (λ x, R x e) l ++ filter (λ x, ¬ R x e) l.
Proof.
  induction 1 as [|x l Hl IH Hx]; [done|].
  destruct (decide (R x e)) as [Hxe|Hxe].
  - rewrite filter_cons_True, filter_cons_False by tauto.
    simpl. by rewrite <-IH.
  - assert (Forall (λ y, ¬ R y e) l) as Hall.
    { eapply Forall_impl; [exact Hx|]. intros y Hxy Hye.
      apply Hxe. by trans y. }
    rewrite filter_cons_False, filter_cons_True by done.
    rewrite (filter_none (λ y, R y e)) by done.
    by rewrite (filter_all (λ y, ¬ R y e)) by done.
Qed.

End SortPlace.

Lemma sortEpisodes_filter (P : Episode → Prop) `{!∀ x, Decision (P x)} l :
  filter P (JS.sort compareEpisodes l) = JS.sort compareEpisodes (filter P l).
Proof. apply (filter_sort compareEpisodes ep_le compareEpisodes_spec). Qed.

Lemma length_sortEpisodes l : length (JS.sort compareEpisodes l) = length l.
Proof. apply Permutation_length, sortEpisodes_perm. Qed.

Lemma removeEpisode_episodes id st :
  episodes (removeEpisode id st)
  = filter (λ ep, Episode.id ep ≠ id) (episodes st).
Proof. done. Qed.

Lemma setEpisodes_same st : setEpisodes (episodes st) st = st.
Proof. by destruct st. Qed.

Lemma seasonNumOf_nonzero v : seasonNumOf v ≠ 0.
Proof.
  unfold seasonNumOf, JS.or_number.
  destruct (JS.parseInt v) as [n|]; [|done].
  by destruct (Z.eqb_spec n 0).
Qed.

Lemma or_string_nonempty s d : d ≠ "" → JS.or_string s d ≠ "".
Proof. by destruct s. Qed.

(** ** Removing episodes *)

(** X1.  Removing an id that no episode of the list carries changes
    nothing: the state, list included, is what it was. *)
Theorem X1_remove_absent_id (id : string) (st : State) :
  Forall (λ e, Episode.id e ≠ id) (episodes st) →
  removeEpisode id st = st.
Proof.
  intros Hall. unfold removeEpisode.
  rewrite filter_all by done. apply setEpisodes_same.
Qed.

Lemma X1_witness :
  removeEpisode "7"
    (initialState |> setEpisodes [Episode.mk "1" 1 1 "Pilot" "N/A" "ABC"])
  = (initialState |> setEpisodes [Episode.mk "1" 1 1 "Pilot" "N/A" "ABC"]).
Proof.
  apply (X1_remove_absent_id "7"
           (initialState
              |> setEpisodes [Episode.mk "1" 1 1 "Pilot" "N/A" "ABC"])).
  repeat constructor. discriminate.
Defined.

(** X2.  Add, then remove what was added.  When no episode of the list
    carries the id of the new one, removing that id after an accepted add
    leaves the sorted form of the old list; for a list that was in order
    this is the old list itself. *)
Theorem X2_add_then_remove (now : Z) (st : State) :
  newEpTitle st ≠ "" → newEpCode st ≠ "" →
  Forall (λ e, Episode.id e ≠ JS.toString now) (episodes st) →
  episodes (removeEpisode (JS.toString now) (handleAddEpisode now st))
  = JS.sort compareEpisodes (episodes st)
  ∧ (StronglySorted ep_le (episodes st) →
     episodes (removeEpisode (JS.toString now) (handleAddEpisode now st))
     = episodes st).
Proof.
  intros Ht Hc Hfresh.
  assert (episodes (removeEpisode (JS.toString now) (handleAddEpisode now st))
          = JS.sort compareEpisodes (episodes st)) as Heq.
  { rewrite handleAddEpisode_accept by done. simpl.
    rewrite sortEpisodes_filter, filter_app, filter_all by done.
    rewrite filter_cons_False, filter_nil, app_nil_r; [done|].
    simpl. tauto. }
  split; [done|]. intros Hs. by rewrite Heq, sortEpisodes_id.
Qed.

Lemma X2_witness :
  episodes
    (removeEpisode (JS.toString 5)
       (handleAddEpisode 5
          (initialState
             |> setEpisodes [Episode.mk "1" 1 2 "S2E1" "N/A" "X"]
             |> setNewEpTitle "S1E1" |> setNewEpCode "Y")))
  = [Episode.mk "1" 1 2 "S2E1" "N/A" "X"].
Proof.
  refine (proj2 (X2_add_then_remove 5
            (initialState
               |> setEpisodes [Episode.mk "1" 1 2 "S2E1" "N/A" "X"]
               |> setNewEpTitle "S1E1" |> setNewEpCode "Y") _ _ _) _).
  - discriminate.
  - discriminate.
  - repeat constructor. discriminate.
  - repeat constructor.
Defined.

(** X3.  Ids are times, not counters.  Two accepted adds made at the
    same value of [Date.now()] give two episodes with one id, and a
    single remove of that id takes both away: a list in order that did
    not carry the id is back to what it was, two entries shorter than
    before the remove. *)
Theorem X3_same_time_adds_removed_together (st : State) (a1 a2 : AddRequest) :
  add_title a1 ≠ "" → add_code a1 ≠ "" →
  add_title a2 ≠ "" → add_code a2 ≠ "" →
  add_now a1 = add_now a2 →
  StronglySorted ep_le (episodes st) →
  Forall (λ e, Episode.id e ≠ JS.toString (add_now a1)) (episodes st) →
  let st2 := add (add st a1) a2 in
  length (episodes st2) = S (S (length (episodes st)))
  ∧ episodes (removeEpisode (JS.toString (add_now a1)) st2) = episodes st.
Proof.
  intros Ht1 Hc1 Ht2 Hc2 Hnow Hs Hfresh st2. subst st2.
  rewrite removeEpisode_episodes.
  rewrite (add_episodes_eq _ a2), (add_episodes_eq _ a1) by done.
  split.
  - rewrite length_sortEpisodes, length_app, length_sortEpisodes, length_app.
    simpl. lia.
  - rewrite <-Hnow.
    rewrite sortEpisodes_filter, filter_app, sortEpisodes_filter, filter_app.
    rewrite filter_all by done.
    rewrite !filter_cons_False, !filter_nil, !app_nil_r by (simpl; tauto).
    rewrite (sortEpisodes_id (episodes st)) by done.
    by apply sortEpisodes_id.
Qed.

Lemma X3_witness :
  episodes
    (removeEpisode (JS.toString 9)
       (add (add initialState (mkAdd 9 "1" "Pilot" "" "ABC"))
          (mkAdd 9 "1" "Episode 2" "" "DEF")))
  = [].
Proof.
  refine (proj2 (X3_same_time_adds_removed_together initialState
            (mkAdd 9 "1" "Pilot" "" "ABC") (mkAdd 9 "1" "Episode 2" "" "DEF")
            _ _ _ _ _ _ _)); try discriminate; try reflexivity; constructor.
Defined.

(** ** Adding episodes *)

(** X4.  Where the new episode lands.  An accepted add makes the list
    one longer.  On a list in order, the new episode goes behind every
    episode that does not come after it in (season, number) order,
    equals included, and in front of the others; the episodes that were
    there keep their order and none is changed. *)
Theorem X4_add_position (now : Z) (st : State) :
  newEpTitle st ≠ "" → newEpCode st ≠ "" →
  length (episodes (handleAddEpisode now st)) = S (length (episodes st))
  ∧ (StronglySorted ep_le (episodes st) →
     episodes (handleAddEpisode now st)
     = filter (λ x, ep_le x (newEp now st)) (episodes st)
       ++ newEp now st
       :: filter (λ x, ¬ ep_le x (newEp now st)) (episodes st)
     ∧ sublist (episodes st) (episodes (handleAddEpisode now st))).
Proof.
  intros Ht Hc. rewrite handleAddEpisode_accept by done. simpl. split.
  { rewrite length_sortEpisodes, length_app. simpl. lia. }
  intros Hs.
  rewrite (sort_snoc_sorted compareEpisodes ep_le compareEpisodes_spec)
    by done.
  split; [done|].
  rewrite (sorted_split ep_le (episodes st) (newEp now st) Hs) at 1.
  apply sublist_app; [done|]. by apply sublist_cons.
Qed.

Lemma X4_witness :
  episodes
    (handleAddEpisode 5
       (initialState
          |> setEpisodes [Episode.mk "1" 1 1 "S1E1" "N/A" "A";
                          Episode.mk "2" 1 2 "S2E1" "N/A" "B"]
          |> setNewEpSeason "1" |> setNewEpTitle "S1E2" |> setNewEpCode "C"))
  = [Episode.mk "1" 1 1 "S1E1" "N/A" "A";
     Episode.mk "5" 2 1 "S1E2" "N/A" "C";
     Episode.mk "2" 1 2 "S2E1" "N/A" "B"].
Proof.
  refine (proj1 (proj2 (X4_add_position 5
            (initialState
               |> setEpisodes [Episode.mk "1" 1 1 "S1E1" "N/A" "A";
                               Episode.mk "2" 1 2 "S2E1" "N/A" "B"]
               |> setNewEpSeason "1" |> setNewEpTitle "S1E2"
               |> setNewEpCode "C") _ _) _)); try discriminate.
  repeat constructor; vm_compute; auto; discriminate.
Defined.

Lemma newEp_wellFormed now st :
  newEpTitle st ≠ "" → newEpCode st ≠ "" → wellFormed (newEp now st).
Proof.
  intros Ht Hc. unfold wellFormed, newEp. simpl.
  split; [lia|]. split; [apply seasonNumOf_nonzero|].
  split; [done|]. split; [by apply or_string_nonempty|done].
Qed.

Lemma handleAddEpisode_wellFormed now st :
  Forall wellFormed (episodes st) →
  Forall wellFormed (episodes (handleAddEpisode now st)).
Proof.
  intros Hall.
  destruct (decide (newEpTitle st = "")) as [Ht|Ht];
    [by rewrite handleAddEpisode_reject by auto|].
  destruct (decide (newEpCode st = "")) as [Hc|Hc];
    [by rewrite handleAddEpisode_reject by auto|].
  rewrite handleAddEpisode_accept by done. simpl.
  rewrite sortEpisodes_perm. apply Forall_app. split; [done|].
  constructor; [by apply newEp_wellFormed|constructor].
Qed.

(** X5.  Every episode of a list built on the episode builder is well
    formed: its number is at least 1, its season is not 0, and its
    title, duration and delivery code are not empty.  This holds after
    any run of input edits, adds and removes from the initial state. *)
Theorem X5_reachable_episodes_wellFormed (st : State) :
  reachable st → Forall wellFormed (episodes st).
Proof.
  intros [evs ->].
  induction evs as [|ev evs IH] using rev_ind; [constructor|].
  rewrite run_snoc. destruct ev; simpl; try done.
  - by apply handleAddEpisode_wellFormed.
  - by apply Forall_filter_keep.
Qed.

Lemma X5_witness :
  Forall wellFormed
    (episodes (run initialState
       [ChangeNewEpSeason "x"; ChangeNewEpTitle "Pilot";
        ChangeNewEpCode "ABC"; ClickAddEpisode 1])).
Proof.
  apply (X5_reachable_episodes_wellFormed
           (run initialState
              [ChangeNewEpSeason "x"; ChangeNewEpTitle "Pilot";
               ChangeNewEpCode "ABC"; ClickAddEpisode 1])).
  eexists. reflexivity.
Defined.

(** X6.  The comparison function given to [sort] is a consistent one:
    an episode compares as 0 with itself, swapping the arguments flips
    the sign, the order it induces is transitive, and two episodes
    compare as 0 exactly when they have the same season and number. *)
Theorem X6_compareEpisodes_consistent :
  (∀ a, compareEpisodes a a = 0)
  ∧ (∀ a b, compareEpisodes b a = - compareEpisodes a b)
  ∧ (∀ a b c, compareEpisodes a b <= 0 → compareEpisodes b c <= 0 →
              compareEpisodes a c <= 0)
  ∧ (∀ a b c, compareEpisodes a b < 0 → compareEpisodes b c < 0 →
              compareEpisodes a c < 0)
  ∧ (∀ a b, compareEpisodes a b = 0 ↔ key a = key b).
Proof.
  unfold compareEpisodes, key. repeat split.
  - intros a. destruct (decide _); [done|lia].
  - intros a b. repeat destruct (decide _); lia.
  - intros a b c. repeat destruct (decide _); lia.
  - intros a b c. repeat destruct (decide _); lia.
  - destruct (decide _); intros ?; f_equal; lia.
  - intros [= Hs Hn]. destruct (decide _); lia.
Qed.

Lemma X6_witness :
  compareEpisodes (Episode.mk "1" 2 1 "a" "N/A" "x")
    (Episode.mk "2" 1 2 "b" "N/A" "y") <= 0.
Proof.
  apply (proj1 (proj2 (proj2 X6_compareEpisodes_consistent))
           (Episode.mk "1" 2 1 "a" "N/A" "x")
           (Episode.mk "1" 3 1 "c" "N/A" "z")
           (Episode.mk "2" 1 2 "b" "N/A" "y")); vm_compute; discriminate.
Defined.

(** ** The form: reset, edit and publish *)

(** X7.  [resetForm] puts every cell it sets back to its initial value.
    What it does not set, it keeps: the active tab, the loading flag and
    the pending episode title, duration and code (the pending season
    goes back to "1").  It is idempotent, and a reset form does not
    pass the publish guard. *)
Theorem X7_resetForm_initial (st : State) :
  resetForm st
  = (initialState |> setActiveTab (activeTab st)
                  |> setLoading (loading st)
                  |> setNewEpTitle (newEpTitle st)
                  |> setNewEpDuration (newEpDuration st)
                  |> setNewEpCode (newEpCode st))
  ∧ resetForm (resetForm st) = resetForm st
  ∧ publishRejected (resetForm st) = true.
Proof. destruct st. split; [|split]; vm_compute; reflexivity. Qed.

(** X8.  No second submission.  Once a publish has gone through, the
    form is reset, so publishing again without entering anything is
    stopped by the guard: the notice is shown and no gateway call is
    made. *)
Theorem X8_publish_twice (r : GatewayResult) (st : State) :
  publishRejected st = false →
  let st1 := (handlePublish Resolved st).1 in
  st1 = (resetForm st |> setLoading false)
  ∧ handlePublish r st1
    = (st1, [Alert "Title, Thumbnail and at least one Link (Code or Episode) are required"]).
Proof.
  intros Hr st1.
  assert (st1 = (resetForm st |> setLoading false)) as ->.
  { subst st1. unfold handlePublish, handlePublish_begin. by rewrite Hr. }
  split; [done|].
  assert (publishRejected (resetForm st |> setLoading false) = true) as Hrej
    by (destruct st; reflexivity).
  unfold handlePublish, handlePublish_begin. by rewrite Hrej.
Qed.

Lemma X8_witness :
  (handlePublish Rejected
     (handlePublish Resolved
        (initialState |> setTitle "Title" |> setThumbnail "thumb.jpg"
           |> setTelegramCode "CODE123")).1).2
  = [Alert "Title, Thumbnail and at least one Link (Code or Episode) are required"].
Proof.
  refine (f_equal snd (proj2 (X8_publish_twice Rejected
            (initialState |> setTitle "Title" |> setThumbnail "thumb.jpg"
               |> setTelegramCode "CODE123") _))).
  reflexivity.
Defined.

(** X9.  Publish, then edit.  Opening for edit the movie read back from
    a document that holds what [handlePublish] wrote brings the form
    back: title, category, thumbnail, code, description and the episode
    list are those that were published (the [null] written for an empty
    list comes back as the empty list); year and quality come back too,
    unless they were empty, in which case they come back as "2024" and
    "4K HDR".  The form is in edit mode on that document, and the guard
    decides as it did before. *)
Theorem X9_publish_then_edit
    (docId ratingText views : string) (st st0 : State) :
  let st' :=
    handleEdit (storedMovie docId ratingText views (movieData st)) st0 in
  title st' = title st ∧ category st' = category st
  ∧ thumbnail st' = thumbnail st ∧ telegramCode st' = telegramCode st
  ∧ description st' = description st ∧ episodes st' = episodes st
  ∧ year st' = JS.or_string (year st) "2024"
  ∧ quality st' = JS.or_string (quality st) "4K HDR"
  ∧ rating st' = ratingText
  ∧ isEditing st' = true ∧ editId st' = Some docId
  ∧ publishRejected st' = publishRejected st.
Proof.
  intros st'. subst st'. unfold handleEdit, storedMovie, movieData. simpl.
  assert (default [] (if (0 <? length (episodes st))%nat
                      then Some (episodes st) else None)
          = episodes st) as Hep by (by destruct (episodes st)).
  rewrite Hep.
  repeat split; try done.
  - by destruct (telegramCode st).
  - by destruct (description st).
  - unfold publishRejected. simpl. by destruct (telegramCode st).
Qed.

(** X10.  Edit, then publish.  After [handleEdit] the form is on the
    upload tab in edit mode, the pending episode inputs are untouched,
    and a publish goes to the movie's document as an update; only a
    movie with an empty id makes it create a new document instead.
    Cancelling, or pressing the upload tab, drops all that was
    loaded. *)
Theorem X10_edit_then_publish (movie : Movie) (st : State) :
  let st' := handleEdit movie st in
  activeTab st' = "upload" ∧ isEditing st' = true
  ∧ newEpTitle st' = newEpTitle st ∧ newEpSeason st' = newEpSeason st
  ∧ newEpDuration st' = newEpDuration st ∧ newEpCode st' = newEpCode st
  ∧ loading st' = loading st
  ∧ (Movie.id movie ≠ "" →
     gatewayCall st' = UpdateDoc (Movie.id movie) (movieData st'))
  ∧ (Movie.id movie = "" →
     gatewayCall st' = AddDoc (movieData st') "0" ServerTimestamp)
  ∧ resetForm st' = (resetForm st |> setActiveTab "upload")
  ∧ openUploadTab st' = openUploadTab st.
Proof.
  intros st'. subst st'. repeat split.
  - intros Hid. unfold gatewayCall, updateTarget. simpl.
    by destruct (Movie.id movie).
  - intros Hid. unfold gatewayCall, updateTarget. simpl. by rewrite Hid.
Qed.

Lemma X10_witness :
  gatewayCall
    (handleEdit
       (Movie.mk "doc1" "Title" "thumb.jpg" "Series" "" "8.5" "0"
          None None None (Some [Episode.mk "1" 1 1 "Pilot" "N/A" "ABC"])
          None)
       initialState)
  = UpdateDoc "doc1"
      (movieData
         (handleEdit
            (Movie.mk "doc1" "Title" "thumb.jpg" "Series" "" "8.5" "0"
               None None None (Some [Episode.mk "1" 1 1 "Pilot" "N/A" "ABC"])
               None)
            initialState)).
Proof.
  apply (X10_edit_then_publish
           (Movie.mk "doc1" "Title" "thumb.jpg" "Series" "" "8.5" "0"
              None None None (Some [Episode.mk "1" 1 1 "Pilot" "N/A" "ABC"])
              None)
           initialState).
  discriminate.
Defined.

(** X11.  Adding to a loaded list.  When the episode list of the movie
    opened for edit is densely numbered, any run of input edits and adds
    after [handleEdit] keeps it so: each season's numbers still read
    1, 2, .., and no two episodes share season and number.  A movie
    without an [episodes] field starts from the empty list. *)
Theorem X11_adds_after_edit (movie : Movie) (st : State) (evs : list Event) :
  dense (default [] (Movie.episodes movie)) →
  Forall (λ ev, is_remove ev = false) evs →
  dense (episodes (run (handleEdit movie st) evs))
  ∧ NoDup (key <$> episodes (run (handleEdit movie st) evs))
  ∧ (Movie.episodes movie = None → episodes (handleEdit movie st) = []).
Proof.
  intros Hd Hev.
  assert (dense (episodes (run (handleEdit movie st) evs))) as Hd'
    by (by apply run_no_remove_dense).
  split; [done|]. split; [by apply dense_NoDup_key|].
  intros Hnone. simpl. by rewrite Hnone.
Qed.

Lemma X11_witness :
  NoDup (key <$> episodes
    (run (handleEdit
            (Movie.mk "doc1" "Title" "thumb.jpg" "Series" "" "8.5" "0"
               None None None
               (Some [Episode.mk "1" 1 1 "Pilot" "N/A" "ABC"]) None)
            initialState)
       [ChangeNewEpTitle "Episode 2"; ChangeNewEpCode "DEF";
        ClickAddEpisode 2])).
Proof.
  refine (proj1 (proj2 (X11_adds_after_edit
            (Movie.mk "doc1" "Title" "thumb.jpg" "Series" "" "8.5" "0"
               None None None
               (Some [Episode.mk "1" 1 1 "Pilot" "N/A" "ABC"]) None)
            initialState
            [ChangeNewEpTitle "Episode 2"; ChangeNewEpCode "DEF";
             ClickAddEpisode 2] _ _))).
  - intros s. unfold numbersOf, ofSeason. simpl.
    rewrite filter_cons, filter_nil. by destruct (decide _).
  - repeat constructor.
Defined.

(** ** Settings, the library list and login *)

Lemma occurrences_removeFirst c s :
  occurrences c (removeFirst c s) = pred (occurrences c s).
Proof.
  induction s as [|a s IH]; simpl; [done|].
  destruct (decide (a = c)) as [->|Hne]; simpl; [done|].
  rewrite decide_False by done. done.
Qed.

Lemma removeFirst_absent c s : occurrences c s = 0%nat → removeFirst c s = s.
Proof.
  induction s as [|a s IH]; simpl; [done|].
  destruct (decide (a = c)); [done|]. intros Hs. by rewrite IH.
Qed.

Lemma occurrences_insertAt c i a s :
  occurrences c (insertAt i a s)
  = ((if decide (a = c) then 1 else 0) + occurrences c s)%nat.
Proof.
  revert s. induction i as [|i IH]; intros [|b s]; simpl; try done.
  rewrite IH. lia.
Qed.

(** X12.  The bot username input.  The handler stores the typed text
    with its first '@' taken out, and only the first: the stored name
    has one '@' fewer than the text, so it is free of '@' exactly when
    the text had at most one.  Text without '@' is stored as typed.
    Typing one character anywhere into a name that is free of '@' gives
    a name that is free of it again. *)
Theorem X12_bot_username_at_sign :
  (∀ value c,
     occurrences "@" (botUsername (changeBotUsername value c))
     = pred (occurrences "@" value))
  ∧ (∀ value c,
       occurrences "@" (botUsername (changeBotUsername value c)) = 0%nat
       ↔ (occurrences "@" value <= 1)%nat)
  ∧ (∀ value c,
       occurrences "@" value = 0%nat →
       changeBotUsername value c = setBotUsername value c)
  ∧ (∀ i a c,
       occurrences "@" (botUsername c) = 0%nat →
       occurrences "@"
         (botUsername (changeBotUsername (insertAt i a (botUsername c)) c))
       = 0%nat).
Proof.
  split; [|split; [|split]].
  - intros value c. apply occurrences_removeFirst.
  - intros value c. simpl. rewrite occurrences_removeFirst. lia.
  - intros value c Hz. unfold changeBotUsername.
    by rewrite removeFirst_absent.
  - intros i a c Hz. simpl.
    rewrite occurrences_removeFirst, occurrences_insertAt, Hz.
    by destruct (decide _).
Qed.

Lemma X12_witness :
  occurrences "@"
    (botUsername
       (changeBotUsername (insertAt 0 "@" (botUsername (setBotUsername "my_bot" initialConsole)))
          (setBotUsername "my_bot" initialConsole)))
  = 0%nat.
Proof.
  apply (proj2 (proj2 (proj2 X12_bot_username_at_sign)) 0%nat "@"%char
           (setBotUsername "my_bot" initialConsole)).
  reflexivity.
Defined.

(** X13.  Save the settings, then read them.  [handleSaveSettings]
    writes the two settings of the state.  Reading that document back
    restores the channel link as it was and the bot username unless it
    was empty, in which case the default [BOT_USERNAME] is shown.  When
    the document is missing the username becomes the default and the
    channel link on screen is kept; when the read fails nothing
    changes. *)
Theorem X13_settings_round_trip (BOT_USERNAME : string) (c cur : Console) :
  let written :=
    {| AppSettings.botUsername := botUsername c;
       AppSettings.channelLink := channelLink c |} in
  (handleSaveSettings_begin c).2 = [SetSettingsDoc written]
  ∧ (let c' := (fetchSettings BOT_USERNAME
                  (Got (Some (settingsRead written))) cur).1 in
     channelLink c' = channelLink c
     ∧ botUsername c' = JS.or_string (botUsername c) BOT_USERNAME
     ∧ (botUsername c ≠ "" → botUsername c' = botUsername c)
     ∧ (BOT_USERNAME ≠ "" → botUsername c' ≠ ""))
  ∧ (fetchSettings BOT_USERNAME (Got None) cur).1
    = setBotUsername BOT_USERNAME cur
  ∧ channelLink (fetchSettings BOT_USERNAME (Got None) cur).1
    = channelLink cur
  ∧ fetchSettings BOT_USERNAME Failed cur = (cur, [LogError]).
Proof.
  intros written. split; [done|]. split; [|done].
  simpl. split; [by destruct (channelLink c)|]. split; [done|].
  split; [by destruct (botUsername c)|].
  intros HB. by destruct (botUsername c).
Qed.

Lemma X13_witness :
  botUsername
    (fetchSettings "Default_bot"
       (Got (Some (settingsRead
          {| AppSettings.botUsername := "my_bot";
             AppSettings.channelLink := "https://t.me/ch" |})))
       initialConsole).1
  = "my_bot".
Proof.
  refine (proj1 (proj2 (proj2 (proj1 (proj2 (X13_settings_round_trip
            "Default_bot"
            (initialConsole |> setBotUsername "my_bot"
                            |> setChannelLink "https://t.me/ch")
            initialConsole))))) _).
  discriminate.
Defined.

(** X14.  Deleting from the library.  When the delete goes through, the
    list on screen loses exactly the movies with that id: none of them
    is left, every other movie stays, in the order it had.  When it
    fails the list is untouched and a notice is shown; when the
    operator declines the confirmation no call is made.  In no case is
    the form touched: a form that was editing the deleted movie stays in
    edit mode, and its next publish is still an update of that id. *)
Theorem X14_delete_movie (id : string) (cur : Console) :
  let c' := (handleDelete_settle Resolved id cur).1 in
  Forall (λ m, Movie.id m ≠ id) (movieList c')
  ∧ sublist (movieList c') (movieList cur)
  ∧ (∀ m, m ∈ movieList cur → Movie.id m ≠ id → m ∈ movieList c')
  ∧ session c' = session cur
  ∧ (isEditing (session cur) = true → editId (session cur) = Some id →
     id ≠ "" →
     gatewayCall (session c') = UpdateDoc id (movieData (session cur)))
  ∧ handleDelete_settle Rejected id cur
    = (cur, [Notice "Error deleting movie"])
  ∧ handleDelete_begin false id cur = (cur, [])
  ∧ handleDelete_begin true id cur = (cur, [DeleteMovieDoc id]).
Proof.
  intros c'. subst c'. simpl. repeat split.
  - apply Forall_forall. by intros m [? _]%list_elem_of_filter.
  - apply sublist_filter.
  - intros m Hin Hne. by apply list_elem_of_filter.
  - intros He Hid Hne. unfold gatewayCall, updateTarget.
    rewrite He, Hid. by destruct id.
Qed.

Lemma X14_witness :
  gatewayCall
    (session (handleDelete_settle Resolved "doc1"
       (initialConsole
          |> withSession (setIsEditing true)
          |> withSession (setEditId (Some "doc1")))).1)
  = UpdateDoc "doc1"
      (movieData
         (session (initialConsole
            |> withSession (setIsEditing true)
            |> withSession (setEditId (Some "doc1"))))).
Proof.
  refine (proj1 (proj2 (proj2 (proj2 (proj2 (X14_delete_movie "doc1"
            (initialConsole
               |> withSession (setIsEditing true)
               |> withSession (setEditId (Some "doc1")))))))) _ _ _).
  - reflexivity.
  - reflexivity.
  - discriminate.
Defined.

(** X15.  A login attempt.  The call carries the e-mail and password of
    the state.  Whatever the message shown before, after the attempt the
    message is empty when the sign-in went through and is the fixed
    "Invalid admin credentials" when it did not, whatever the cause.
    The loading flag is off again, the e-mail and password are kept for
    another try, the form is untouched, and the signed-in user is not
    set by the handler: only the auth listener sets it. *)
Theorem X15_login_attempt (r : GatewayResult) (c : Console) :
  let c2 := handleLogin_settle r (handleLogin_begin c).1 in
  (handleLogin_begin c).2 = [SignIn (email c) (password c)]
  ∧ error c2 = match r with
               | Resolved => ""
               | Rejected => "Invalid admin credentials"
               end
  ∧ loading (session c2) = false
  ∧ email c2 = email c ∧ password c2 = password c
  ∧ user c2 = user c
  ∧ sameSession (session c2) (session c)
  ∧ (∀ u, user (onAuthStateChanged u c2) = u).
Proof.
  intros c2. subst c2. destruct r; simpl; by repeat split.
Qed.

(** ** Reading back a printed integer *)

Lemma digitValue_pretty_N_char k :
  (k < 10)%N → JS.digitValue (pretty_N_char k) = Some (Z.of_N k).
Proof.
  intros Hk.
  assert (k = 0 ∨ k = 1 ∨ k = 2 ∨ k = 3 ∨ k = 4 ∨ k = 5 ∨ k = 6 ∨ k = 7
          ∨ k = 8 ∨ k = 9)%N as Hcases by lia.
  repeat (destruct Hcases as [->|Hcases]; [reflexivity|]).
  by subst.
Qed.

Lemma digitsPrefix_pretty_N_char k s :
  (k < 10)%N →
  JS.digitsPrefix 10 (String (pretty_N_char k) s)
  = Z.of_N k :: JS.digitsPrefix 10 s.
Proof.
  intros Hk. simpl. rewrite digitValue_pretty_N_char by done.
  assert ((Z.of_N k <? 10) = true) as -> by (apply Z.ltb_lt; lia). done.
Qed.

(** The digits [pretty_N_go] puts in front of [s] read as [x] shifted
    in front of what [s] reads as. *)
Lemma digits_pretty_N_go x s :
  foldl (λ acc d, acc * 10 + d) 0 (JS.digitsPrefix 10 (pretty_N_go x s))
  = foldl (λ acc d, acc * 10 + d) (Z.of_N x) (JS.digitsPrefix 10 s).
Proof.
  revert s. induction (N.lt_wf_0 x) as [x _ IH]. intros s.
  destruct (decide (x = 0)%N) as [->|Hx]; [by rewrite pretty_N_go_0|].
  rewrite pretty_N_go_step by lia.
  rewrite IH by (apply N.div_lt; lia).
  rewrite digitsPrefix_pretty_N_char by (apply N.mod_lt; lia). simpl.
  f_equal. rewrite (N.div_mod x 10) at 3 by lia. lia.
Qed.

(** A printed positive number starts with a digit from 1 to 9. *)
Lemma pretty_N_go_head x s :
  (0 < x)%N →
  ∃ k rest, (1 <= k < 10)%N ∧ pretty_N_go x s = String (pretty_N_char k) rest.
Proof.
  revert s. induction (N.lt_wf_0 x) as [x _ IH]. intros s Hx.
  rewrite pretty_N_go_step by done.
  destruct (decide (x `div` 10 = 0)%N) as [Hd|Hd].
  - rewrite Hd, pretty_N_go_0. exists (x `mod` 10)%N, s. split; [|done].
    pose proof (N.div_mod x 10 ltac:(lia)).
    pose proof (N.mod_lt x 10 ltac:(lia)). lia.
  - apply IH; [apply N.div_lt; lia|by apply N.neq_0_lt_0].
Qed.

Lemma parseInt_leading_digit k rest :
  (1 <= k < 10)%N →
  JS.parseInt (String (pretty_N_char k) rest)
  = Some (1 * JS.digitsValue 10
                 (JS.digitsPrefix 10 (String (pretty_N_char k) rest)))
  ∧ JS.parseInt (String "-" (String (pretty_N_char k) rest))
    = Some (-1 * JS.digitsValue 10
                   (JS.digitsPrefix 10 (String (pretty_N_char k) rest))).
Proof.
  intros Hk.
  assert (k = 1 ∨ k = 2 ∨ k = 3 ∨ k = 4 ∨ k = 5 ∨ k = 6 ∨ k = 7
          ∨ k = 8 ∨ k = 9)%N as Hcases by lia.
  repeat (destruct Hcases as [->|Hcases]; [split; reflexivity|]).
  subst. split; reflexivity.
Qed.

Lemma parseInt_pretty_N_go x :
  (0 < x)%N →
  JS.parseInt (pretty_N_go x "") = Some (Z.of_N x)
  ∧ JS.parseInt (String "-" (pretty_N_go x "")) = Some (- Z.of_N x).
Proof.
  intros Hx.
  destruct (pretty_N_go_head x "" Hx) as (k & rest & Hk & Heq).
  pose proof (digits_pretty_N_go x "") as Hval. simpl in Hval.
  fold (JS.digitsValue 10 (JS.digitsPrefix 10 (pretty_N_go x ""))) in Hval.
  destruct (parseInt_leading_digit k rest Hk) as [Hpos Hneg].
  rewrite <-Heq in Hpos, Hneg. rewrite Hpos, Hneg, Hval.
  split; f_equal; lia.
Qed.

(** X16.  A season typed as a plain number.  [parseInt] reads back the
    decimal text of every safe integer (magnitude at most 2^53 - 1) as
    that integer.  So a season input that is the decimal text of a
    non-zero safe integer, negative ones included, is stored as that
    integer, and the text "0" is stored as 1. *)
Theorem X16_season_from_decimal_text (n : Z) :
  isSafeInteger n →
  JS.parseInt (JS.toString n) = Some n
  ∧ seasonNumOf (JS.toString n) = (if decide (n = 0) then 1 else n)
  ∧ isSafeInteger (seasonNumOf (JS.toString n))
  ∧ ∀ now st,
      Episode.season (newEp now (setNewEpSeason (JS.toString n) st))
      = (if decide (n = 0) then 1 else n).
Proof.
  intros Hsafe.
  assert (JS.parseInt (JS.toString n) = Some n) as Hp.
  { unfold JS.toString, pretty, pretty_Z. destruct n as [|p|p].
    - reflexivity.
    - unfold pretty, pretty_positive, pretty, pretty_N.
      rewrite decide_False by done.
      by destruct (parseInt_pretty_N_go (N.pos p)) as [-> _].
    - unfold pretty, pretty_positive, pretty, pretty_N.
      rewrite decide_False by done.
      change ("-" +:+ pretty_N_go (N.pos p) "")
        with (String "-" (pretty_N_go (N.pos p) "")).
      by destruct (parseInt_pretty_N_go (N.pos p)) as [_ ->]. }
  assert (seasonNumOf (JS.toString n) = (if decide (n = 0) then 1 else n))
    as Hs.
  { unfold seasonNumOf. rewrite Hp. simpl.
    destruct (Z.eqb_spec n 0), (decide (n = 0)); done. }
  split; [done|]. split; [done|]. split; [|intros now st; exact Hs].
  rewrite Hs. destruct (decide (n = 0)); [|done].
  unfold isSafeInteger, MAX_SAFE_INTEGER. lia.
Qed.

Lemma X16_witness :
  seasonNumOf (JS.toString (-3)) = -3.
Proof.
  refine (proj1 (proj2 (X16_season_from_decimal_text (-3) _))).
  unfold isSafeInteger, MAX_SAFE_INTEGER. lia.
Defined.
